(** * exampleTSL2591: the two mbed example programs for the TSL2591 light sensor

    [src/tsl2591/tsl2591.cpp] polls the sensor every 500 ms;
    [src/tsl2591_int/tsl2591_interrupt.cpp] additionally programs the
    threshold interrupt and reads the status byte on every round.

    Both programs talk to the Adafruit_TSL2591 driver, the console and the
    scheduler and then loop forever, so each C++ function is embedded as an
    interaction tree over the calls it makes.  The driver itself is not part
    of these sources: it is the environment that answers the calls.  The
    global [tsl] and [i2c] objects are the one driver instance and the one
    bus, and are left implicit in the calls; [simpleRead] of tsl2591.cpp is
    never called by [main]; its driver call is outside the vocabulary of the
    two programs and is a parameter of its embedding. *)

From Stdlib Require Import ZArith List String Lia Bool.
From ITree Require Import ITree.
Import ListNotations.
Import ITreeNotations.
Local Open Scope string_scope.
Local Open Scope itree_scope.
Local Open Scope Z_scope.

(** ** C integer types of the target (Arm Cortex-M, ILP32) *)

Definition to_uint8 (z : Z) : Z := z mod 2 ^ 8.
Definition to_uint16 (z : Z) : Z := z mod 2 ^ 16.
Definition to_uint32 (z : Z) : Z := z mod 2 ^ 32.

(** [int] is 32-bit two's complement. *)
Definition to_int (z : Z) : Z := (z + 2 ^ 31) mod 2 ^ 32 - 2 ^ 31.

(** Integer promotion of a [uint8_t] or [uint16_t] operand: every value of
    these types fits [int], so the operand becomes an [int] of equal value. *)
Definition promote (z : Z) : Z := to_int z.

(** A C condition: non-zero is true. *)
Definition c_true (z : Z) : bool := negb (z =? 0).

(** ** Driver vocabulary (Adafruit_TSL2591.h) *)

Inductive tsl2591Gain_t :=
| TSL2591_GAIN_LOW
| TSL2591_GAIN_MED
| TSL2591_GAIN_HIGH
| TSL2591_GAIN_MAX.

(** A value of type [tsl2591Gain_t] as a call returns it: one of the four
    enumerators, or a value of the underlying integer type that is none of
    them, which no [case] of a [switch] over the enumerators matches. *)
Inductive returned_gain :=
| listed (g : tsl2591Gain_t)
| unlisted.

Inductive tsl2591IntegrationTime_t :=
| TSL2591_INTEGRATIONTIME_100MS
| TSL2591_INTEGRATIONTIME_200MS
| TSL2591_INTEGRATIONTIME_300MS
| TSL2591_INTEGRATIONTIME_400MS
| TSL2591_INTEGRATIONTIME_500MS
| TSL2591_INTEGRATIONTIME_600MS.

(** Modelled from the spec: the header declaring [tsl2591Persist_t] is not
    among the sources; these are the enumerators the example names. *)
Inductive tsl2591Persist_t :=
| TSL2591_PERSIST_ANY
| TSL2591_PERSIST_5
| TSL2591_PERSIST_60.

(** The channel selectors [simpleRead] names; the header declaring them is
    not among the sources. *)
Inductive tsl2591Channel :=
| TSL2591_FULLSPECTRUM
| TSL2591_INFRARED
| TSL2591_VISIBLE.

(** The [float] returned by [calculateLux] is only handed on to [printf];
    it is carried as its IEEE-754 binary32 bit pattern. *)
Definition float32 := Z.

(** Arguments of a [printf] call after the default argument promotions. *)
Inductive printf_arg :=
| arg_int (z : Z)
| arg_double (f : float32).

(** ** The calls the programs make *)

Variant tslE : Type -> Type :=
| tsl_begin : tslE bool
| tsl_getID : tslE Z
| tsl_setGain (gain : tsl2591Gain_t) : tslE unit
| tsl_setTiming (integration : tsl2591IntegrationTime_t) : tslE unit
| tsl_getGain : tslE returned_gain
| tsl_getFullLuminosity : tslE Z
| tsl_calculateLux (ch0 ch1 : Z) : tslE float32
| tsl_getStatus : tslE Z
| tsl_clearInterrupt : tslE unit
| tsl_registerInterrupt (lowerThreshold upperThreshold : Z)
    (persist : tsl2591Persist_t) : tslE unit
| printf (format : string) (args : list printf_arg) : tslE unit
| thread_sleep_for (millisec : Z) : tslE unit.

Definition prog := itree tslE.

(** [while (1) body] *)
Definition while_1 {R : Type} (body : prog unit) : prog R :=
  ITree.forever body.

(** [if (c) body], without [else] *)
Definition when (c : bool) (body : prog unit) : prog unit :=
  if c then body else Ret tt.

(** ** src/tsl2591/tsl2591.cpp *)

Module tsl2591.

(** [configureSensor], with the [setGain] and [setTiming] lines that are
    left uncommented as [gain] and [integration]. *)
Definition configureSensor_with (gain : tsl2591Gain_t)
    (integration : tsl2591IntegrationTime_t) : prog unit :=
  ITree.trigger (tsl_setGain gain);;
  ITree.trigger (tsl_setTiming integration);;
  ITree.trigger (printf "------------------------------------\n" []);;
  ITree.trigger (printf "Gain:         " []);;
  gain <- ITree.trigger tsl_getGain;;
  match gain with
  | listed TSL2591_GAIN_LOW => ITree.trigger (printf "1x (Low)\n" [])
  | listed TSL2591_GAIN_MED => ITree.trigger (printf "25x (Medium)\n" [])
  | listed TSL2591_GAIN_HIGH => ITree.trigger (printf "428x (High)\n" [])
  | listed TSL2591_GAIN_MAX => ITree.trigger (printf "9876x (Max)\n" [])
  | unlisted => Ret tt
  end;;
  ITree.trigger (printf "------------------------------------\n" []).

Definition configureSensor : prog unit :=
  configureSensor_with TSL2591_GAIN_MED TSL2591_INTEGRATIONTIME_300MS.

(** [simpleRead]; [getLuminosity] stands for [tsl.getLuminosity], the one
    driver method that only this function uses. *)
Definition simpleRead (getLuminosity : tsl2591Channel -> prog Z) : prog unit :=
  x <- getLuminosity TSL2591_VISIBLE;;
  let x := to_uint16 x in
  ITree.trigger (printf "Luminosity: %d\n" [arg_int (promote x)]).

Definition advancedRead : prog unit :=
  lum <- ITree.trigger tsl_getFullLuminosity;;
  let lum := to_uint32 lum in
  let ir := to_uint16 (to_uint32 (Z.shiftr lum 16)) in
  let full := to_uint16 (to_uint32 (Z.land lum 0xFFFF)) in
  lux <- ITree.trigger (tsl_calculateLux full ir);;
  ITree.trigger
    (printf "IR: %d  Full: %d  Visible: %d  Lux: %f\n"
       [arg_int (promote ir); arg_int (promote full);
        arg_int (to_int (promote full - promote ir)); arg_double lux]).

Definition main : prog Z :=
  ITree.trigger (printf "Starting Adafruit TSL2591 Test!\n" []);;
  found <- ITree.trigger tsl_begin;;
  when (negb found)
    (ITree.trigger (printf "No sensor found ... check your wiring?\n" []);;
     while_1 (Ret tt));;
  configureSensor;;
  while_1
    (advancedRead;;
     ITree.trigger (thread_sleep_for 500)).

End tsl2591.

(** ** src/tsl2591_int/tsl2591_interrupt.cpp *)

Module tsl2591_interrupt.

Definition TLS2591_INT_THRESHOLD_LOWER : Z := 100.
Definition TLS2591_INT_THRESHOLD_UPPER : Z := 1500.
Definition TLS2591_INT_PERSIST : tsl2591Persist_t := TSL2591_PERSIST_60.

(** The body of [configureSensor], with the three macros as [lower], [upper]
    and [persist] and the [setGain] and [setTiming] lines that are left
    uncommented as [gain] and [integration]. *)
Definition configureSensor_for (lower upper : Z) (persist : tsl2591Persist_t)
    (gain : tsl2591Gain_t) (integration : tsl2591IntegrationTime_t)
    : prog unit :=
  ITree.trigger (tsl_setGain gain);;
  ITree.trigger (tsl_setTiming integration);;
  ITree.trigger (printf "------------------------------------\n" []);;
  ITree.trigger (printf "Gain:         " []);;
  gain <- ITree.trigger tsl_getGain;;
  match gain with
  | listed TSL2591_GAIN_LOW => ITree.trigger (printf "1x (Low)\n" [])
  | listed TSL2591_GAIN_MED => ITree.trigger (printf "25x (Medium)\n" [])
  | listed TSL2591_GAIN_HIGH => ITree.trigger (printf "428x (High)\n" [])
  | listed TSL2591_GAIN_MAX => ITree.trigger (printf "9876x (Max)\n" [])
  | unlisted => Ret tt
  end;;
  ITree.trigger (printf "------------------------------------\n" []);;
  ITree.trigger tsl_clearInterrupt;;
  ITree.trigger
    (tsl_registerInterrupt (to_uint16 lower) (to_uint16 upper) persist);;
  ITree.trigger
    (printf "Interrupt Threshold Window: %d to %d\n"
       [arg_int (to_int lower); arg_int (to_int upper)]).

(** [configureSensor] with the macros as the file defines them. *)
Definition configureSensor_with (gain : tsl2591Gain_t)
    (integration : tsl2591IntegrationTime_t) : prog unit :=
  configureSensor_for TLS2591_INT_THRESHOLD_LOWER TLS2591_INT_THRESHOLD_UPPER
    TLS2591_INT_PERSIST gain integration.

Definition configureSensor : prog unit :=
  configureSensor_with TSL2591_GAIN_MED TSL2591_INTEGRATIONTIME_100MS.

Definition advancedRead : prog unit :=
  lum <- ITree.trigger tsl_getFullLuminosity;;
  let lum := to_uint32 lum in
  let ir := to_uint16 (to_uint32 (Z.shiftr lum 16)) in
  let full := to_uint16 (to_uint32 (Z.land lum 0xFFFF)) in
  lux <- ITree.trigger (tsl_calculateLux full ir);;
  ITree.trigger
    (printf "IR: %d  Full: %d  Visible: %d  Lux: %f\n"
       [arg_int (promote ir); arg_int (promote full);
        arg_int (to_int (promote full - promote ir)); arg_double lux]).

Definition getStatus : prog unit :=
  x <- ITree.trigger tsl_getStatus;;
  let x := to_uint8 x in
  when (c_true (Z.land (promote x) 0x10))
    (ITree.trigger (printf "ALS Interrupt occured\n" []));;
  when (c_true (Z.land (promote x) 0x20))
    (ITree.trigger (printf "No-persist Interrupt occured\n" []));;
  ITree.trigger (printf "Status: %x\n" [arg_int (promote x)]);;
  ITree.trigger tsl_clearInterrupt.

Definition main : prog Z :=
  ITree.trigger (printf "Starting Adafruit TSL2591 interrupt Test!\n" []);;
  found <- ITree.trigger tsl_begin;;
  when (negb found)
    (ITree.trigger (printf "No sensor found ... check your wiring?\n" []);;
     while_1 (Ret tt));;
  id <- ITree.trigger tsl_getID;;
  let id := to_uint8 id in
  ITree.trigger (printf "------------------------------------\n" []);;
  ITree.trigger (printf "ID: %x\n" [arg_int (promote id)]);;
  ITree.trigger (printf "------------------------------------\n" []);;
  configureSensor;;
  while_1
    (advancedRead;;
     getStatus;;
     ITree.trigger (thread_sleep_for 500)).

End tsl2591_interrupt.

(** ** Running a program against an environment *)

(** A call together with the answer the environment gave. *)
Inductive call : Type :=
| Call {T : Type} (e : tslE T) (answer : T).

(** What a run leaves behind: the calls made, the state of the environment,
    the value returned if the program has returned, and the fuel not used. *)
Record exec (St R : Type) : Type := mkExec {
  log : list call;
  env : St;
  result : option R;
  fuel_left : nat
}.
Arguments mkExec {St R}.
Arguments log {St R}.
Arguments env {St R}.
Arguments result {St R}.
Arguments fuel_left {St R}.

Definition logged {St R : Type} (c : call) (x : exec St R) : exec St R :=
  mkExec (c :: log x) (env x) (result x) (fuel_left x).

Section Run.
Context {St : Type}.
Variable handle : forall T : Type, tslE T -> St -> St * T.

(** [run fuel t s] executes [t] from the environment state [s]; [fuel]
    bounds the number of calls and loop turns.  [result] is [None] when the
    program is still running once the fuel is spent. *)
Fixpoint run {R : Type} (fuel : nat) (t : prog R) (s : St) : exec St R :=
  match observe t with
  | RetF r => mkExec [] s (Some r) fuel
  | TauF t' =>
      match fuel with
      | O => mkExec [] s None O
      | S n => run n t' s
      end
  | VisF e k =>
      match fuel with
      | O => mkExec [] s None O
      | S n =>
          let (s1, x) := handle _ e s in
          logged (Call e x) (run n (k x) s1)
      end
  end.

(** What happens after [a], when it has returned. *)
Definition then_run {R U : Type} (a : exec St R)
    (k : R -> nat -> St -> exec St U) : exec St U :=
  match result a with
  | Some r =>
      let b := k r (fuel_left a) (env a) in
      mkExec (log a ++ log b) (env b) (result b) (fuel_left b)
  | None => mkExec (log a) (env a) None O
  end.
End Run.

(** ** Reading a log *)

Definition is_poll (c : call) : bool :=
  match c with
  | Call e _ => match e with tsl_getFullLuminosity => true | _ => false end
  end.

Definition is_configuration (c : call) : bool :=
  match c with
  | Call e _ =>
      match e with
      | tsl_setGain _ | tsl_setTiming _ | tsl_registerInterrupt _ _ _ => true
      | _ => false
      end
  end.

Definition is_clearInterrupt (c : call) : bool :=
  match c with
  | Call e _ => match e with tsl_clearInterrupt => true | _ => false end
  end.

Definition is_registerInterrupt (c : call) : bool :=
  match c with
  | Call e _ => match e with tsl_registerInterrupt _ _ _ => true | _ => false end
  end.

Definition sleep_of (c : call) : list Z :=
  match c with
  | Call e _ => match e with thread_sleep_for ms => [ms] | _ => [] end
  end.

(** The delays requested in a stretch of the log, in order. *)
Definition delays (l : list call) : list Z := flat_map sleep_of l.

(** The three integers of a line printed by [advancedRead]:
    IR, Full and Visible. *)
Definition reading_of (c : call) : list (Z * Z * Z) :=
  match c with
  | Call e _ =>
      match e with
      | printf fmt [arg_int ir; arg_int full; arg_int visible; arg_double _] =>
          if (fmt =? "IR: %d  Full: %d  Visible: %d  Lux: %f\n")%string
          then [(ir, full, visible)] else []
      | _ => []
      end
  end.

Definition readings (l : list call) : list (Z * Z * Z) := flat_map reading_of l.

Definition status_of (c : call) : list Z :=
  match c with
  | Call e x =>
      match e in tslE T return T -> list Z with
      | tsl_getStatus => fun x => [x]
      | _ => fun _ => []
      end x
  end.

(** The status bytes the driver returned, in order. *)
Definition status_reads (l : list call) : list Z := flat_map status_of l.

Definition status_line_of (c : call) : list Z :=
  match c with
  | Call e _ =>
      match e with
      | printf fmt [arg_int x] =>
          if (fmt =? "Status: %x\n")%string then [x] else []
      | _ => []
      end
  end.

(** The status values printed, in order. *)
Definition status_lines (l : list call) : list Z := flat_map status_line_of l.

Definition gain_of (c : call) : list returned_gain :=
  match c with
  | Call e x =>
      match e in tslE T return T -> list returned_gain with
      | tsl_getGain => fun g => [g]
      | _ => fun _ => []
      end x
  end.

(** The gains the driver reported, in order. *)
Definition gain_reads (l : list call) : list returned_gain := flat_map gain_of l.

(** ** Safety monitors over logs *)

Section Monitor.
Context {M : Type}.
Variable mstep : M -> call -> option M.

(** A monitor reads the log call by call; [None] is a violation. *)
Fixpoint mrun (m : M) (l : list call) : option M :=
  match l with
  | [] => Some m
  | c :: l' =>
      match mstep m c with
      | Some m' => mrun m' l'
      | None => None
      end
  end.
End Monitor.

Section Safety.
Context {St : Type}.
Variable handle : forall T : Type, tslE T -> St -> St * T.
Context {M : Type}.
Variable mstep : M -> call -> option M.

(** [safe m t Q]: started with the monitor in state [m], the program [t]
    never makes the monitor fail, from any state of the environment and
    for any amount of fuel; and whenever [t] returns [r] with the monitor
    in state [m'], [Q r m'] holds. *)
Definition safe {R : Type} (m : M) (t : prog R) (Q : R -> M -> Prop) : Prop :=
  forall (n : nat) (s : St),
  exists m' : M,
    mrun mstep m (log (run handle n t s)) = Some m' /\
    forall r : R, result (run handle n t s) = Some r -> Q r m'.
End Safety.

(** Every call satisfies [ok]. *)
Definition each (ok : call -> bool) (_ : unit) (c : call) : option unit :=
  if ok c then Some tt else None.


(** How far the handshake has got. *)
Inductive handshake := Starting | Found | NotFound | Halted.

(** [says msg c]: the call [c] prints the plain line [msg]. *)
Definition says (msg : string) (c : call) : bool :=
  match c with
  | Call e _ =>
      match e with
      | printf fmt [] => (fmt =? msg)%string
      | _ => false
      end
  end.

Definition printed (msg : string) (l : list call) : bool :=
  existsb (says msg) l.

Definition is_no_sensor_message : call -> bool :=
  says "No sensor found ... check your wiring?\n".

Definition is_begin (c : call) : bool :=
  match c with
  | Call e _ => match e with tsl_begin => true | _ => false end
  end.

(** Before the handshake the program only prints; the handshake is made
    once; after a failed handshake the only call left is the message. *)
Definition halt_step (h : handshake) (c : call) : option handshake :=
  match h with
  | Starting =>
      match c with
      | Call e x =>
          match e in tslE T return T -> option handshake with
          | tsl_begin => fun found => Some (if found then Found else NotFound)
          | printf _ _ => fun _ => Some Starting
          | _ => fun _ => None
          end x
      end
  | Found => if is_begin c then None else Some Found
  | NotFound => if is_no_sensor_message c then Some Halted else None
  | Halted => None
  end.

Definition one_delay_of_500 (d : list Z) : bool :=
  match d with
  | [ms] => ms =? 500
  | _ => false
  end.

(** [None]: no poll yet; [Some d]: the delays requested since the last
    poll.  A poll is accepted when it is the first one or when exactly one
    delay, of 500 ms, was requested since the previous one. *)
Definition pace_step (m : option (list Z)) (c : call) : option (option (list Z)) :=
  if is_poll c then
    match m with
    | None => Some (Some [])
    | Some d => if one_delay_of_500 d then Some (Some []) else None
    end
  else Some (option_map (fun d => (d ++ sleep_of c)%list) m).

(** The state is whether the last call was [clearInterrupt];
    [registerInterrupt] is accepted only right after it. *)
Definition clear_first_step (cleared : bool) (c : call) : option bool :=
  if is_registerInterrupt c && negb cleared then None
  else Some (is_clearInterrupt c).

(** ** A simulated sensor *)

(** Modelled from the spec: the Adafruit_TSL2591 driver and the device behind
    it are not among the sources.  The simulated sensor keeps what the spec
    says the collaborator keeps: whether it answers the handshake, its ID,
    the gain and integration time last set, the interrupt window last
    registered, the latched status byte, and the integrations still to
    come, each with its combined 32-bit reading and the status bits the
    device latches while integrating. *)
Record sensor := mkSensor {
  present : bool;
  chip_id : Z;
  gain_set : tsl2591Gain_t;
  timing_set : tsl2591IntegrationTime_t;
  window : option (Z * Z * tsl2591Persist_t);
  status : Z;
  pending : list (Z * Z)
}.

Definition with_status (st : Z) (s : sensor) : sensor :=
  mkSensor (present s) (chip_id s) (gain_set s) (timing_set s) (window s)
    st (pending s).

(** Modelled from the spec: [begin] reports whether the sensor responds;
    [setGain] and [setTiming] store the selection and [getGain] returns the
    stored gain (always one of the enumerators); [getFullLuminosity] returns the next combined reading and
    latches that integration's status bits; [getStatus] returns the latched
    byte; [clearInterrupt] clears it; [registerInterrupt] stores the window.
    The lux conversion is out of scope and is a parameter. *)
Definition sensor_handle (lux : Z -> Z -> float32)
    (T : Type) (e : tslE T) (s : sensor) : sensor * T :=
  match e in tslE T return sensor * T with
  | tsl_begin => (s, present s)
  | tsl_getID => (s, chip_id s)
  | tsl_setGain g =>
      (mkSensor (present s) (chip_id s) g (timing_set s) (window s)
         (status s) (pending s), tt)
  | tsl_setTiming t =>
      (mkSensor (present s) (chip_id s) (gain_set s) t (window s)
         (status s) (pending s), tt)
  | tsl_getGain => (s, listed (gain_set s))
  | tsl_getFullLuminosity =>
      match pending s with
      | [] => (s, 0)
      | (lum, latched) :: rest =>
          (mkSensor (present s) (chip_id s) (gain_set s) (timing_set s)
             (window s) (Z.lor (status s) latched) rest, lum)
      end
  | tsl_calculateLux ch0 ch1 => (s, lux ch0 ch1)
  | tsl_getStatus => (s, status s)
  | tsl_clearInterrupt => (with_status 0 s, tt)
  | tsl_registerInterrupt lower upper persist =>
      (mkSensor (present s) (chip_id s) (gain_set s) (timing_set s)
         (Some (lower, upper, persist)) (status s) (pending s), tt)
  | printf _ _ => (s, tt)
  | thread_sleep_for _ => (s, tt)
  end.

(** A sensor on the bench: it answers, has an ALS interrupt latched from
    before the program started, and its first integration reads
    0x03E801F4. *)
Definition bench : sensor :=
  mkSensor true 0x50 TSL2591_GAIN_LOW TSL2591_INTEGRATIONTIME_100MS None 0x11
    [(0x03E801F4, 0x10); (0x00640320, 0); (0x000A0064, 0x30)].

(** The same sensor in daylight: more full-spectrum than infrared light,
    nothing latched. *)
Definition daylight : sensor :=
  mkSensor true 0x50 TSL2591_GAIN_LOW TSL2591_INTEGRATIONTIME_100MS None 0
    [(0x00640320, 0)].

(** No sensor on the bus. *)
Definition unplugged : sensor :=
  mkSensor false 0 TSL2591_GAIN_LOW TSL2591_INTEGRATIONTIME_100MS None 0 [].

(** A lux conversion for the simulated runs. *)
Definition no_lux (ch0 ch1 : Z) : float32 := 0.

(** ** More to read in a log *)

Definition is_printf (c : call) : bool :=
  match c with
  | Call e _ => match e with printf _ _ => true | _ => false end
  end.

Definition is_getStatus (c : call) : bool :=
  match c with
  | Call e _ => match e with tsl_getStatus => true | _ => false end
  end.

(** The calls that only the interrupt example makes. *)
Definition uses_interrupt_api (c : call) : bool :=
  match c with
  | Call e _ =>
      match e with
      | tsl_getID | tsl_getStatus | tsl_clearInterrupt
      | tsl_registerInterrupt _ _ _ => true
      | _ => false
      end
  end.

Definition count_polls (l : list call) : nat :=
  List.length (filter is_poll l).

(** The line [configureSensor] prints for a gain. *)
Definition gain_label (g : tsl2591Gain_t) : string :=
  match g with
  | TSL2591_GAIN_LOW => "1x (Low)\n"
  | TSL2591_GAIN_MED => "25x (Medium)\n"
  | TSL2591_GAIN_HIGH => "428x (High)\n"
  | TSL2591_GAIN_MAX => "9876x (Max)\n"
  end.

(** What [configureSensor] prints for the gain read back: the label of an
    enumerator, nothing for any other value. *)
Definition gain_lines (g : returned_gain) : list call :=
  match g with
  | listed g => [Call (printf (gain_label g) []) tt]
  | unlisted => []
  end.

(** The state is whether a poll has been made; after the first poll no
    configuration call is accepted. *)
Definition settled_step (polled : bool) (c : call) : option bool :=
  if is_poll c then Some true
  else if is_configuration c && polled then None
  else Some polled.

(** The state is whether a status has been read and not yet cleared; while
    it is, only printing and [clearInterrupt] are accepted. *)
Definition unread_step (unread : bool) (c : call) : option bool :=
  if is_printf c then Some unread
  else if unread then (if is_clearInterrupt c then Some false else None)
  else Some (is_getStatus c).

(** ** Progress *)

Section Progress.
Context {St : Type}.
Variable handle : forall T : Type, tslE T -> St -> St * T.

(** [within c p t]: from any state of the environment, [t] returns after at
    most [c] calls and loop turns, and has polled at least [p] times. *)
Definition within {R : Type} (c p : nat) (t : prog R) : Prop :=
  forall (s : St) (m : nat), (c <= m)%nat ->
    result (run handle m t s) <> None /\
    (m - c <= fuel_left (run handle m t s))%nat /\
    (p <= count_polls (log (run handle m t s)))%nat.

(** [polls_by f t]: from any state of the environment, with fuel [f k] or
    more the program [t] has polled at least [k] times. *)
Definition polls_by {R : Type} (f : nat -> nat) (t : prog R) : Prop :=
  forall (k n : nat) (s : St), (f k <= n)%nat ->
    (k <= count_polls (log (run handle n t s)))%nat.
End Progress.

(** A lamp of constant brightness in front of a sensor that always answers
    and reports a gain that is none of the four enumerators, whatever was
    set; the state counts the polls. *)
Definition lamp (T : Type) (e : tslE T) (polls : nat) : nat * T :=
  match e in tslE T return nat * T with
  | tsl_begin => (polls, true)
  | tsl_getID => (polls, 0x50)
  | tsl_setGain _ => (polls, tt)
  | tsl_setTiming _ => (polls, tt)
  | tsl_getGain => (polls, unlisted)
  | tsl_getFullLuminosity => (S polls, 0x00640320)
  | tsl_calculateLux _ _ => (polls, 0)
  | tsl_getStatus => (polls, 0)
  | tsl_clearInterrupt => (polls, tt)
  | tsl_registerInterrupt _ _ _ => (polls, tt)
  | printf _ _ => (polls, tt)
  | thread_sleep_for _ => (polls, tt)
  end.

(** * Facts *)

(** ** The integer conversions *)

Lemma to_int_small (z : Z) : - 2 ^ 31 <= z < 2 ^ 31 -> to_int z = z.
Proof.
  intros H. unfold to_int.
  rewrite Z.mod_small by lia. lia.
Qed.

Lemma to_uint16_range (z : Z) : 0 <= to_uint16 z < 2 ^ 16.
Proof. unfold to_uint16. apply Z.mod_pos_bound. lia. Qed.

Lemma to_uint8_range (z : Z) : 0 <= to_uint8 z < 2 ^ 8.
Proof. unfold to_uint8. apply Z.mod_pos_bound. lia. Qed.

Lemma promote_uint16 (z : Z) : promote (to_uint16 z) = to_uint16 z.
Proof.
  unfold promote. apply to_int_small.
  pose proof (to_uint16_range z). lia.
Qed.

Lemma promote_uint8 (z : Z) : promote (to_uint8 z) = to_uint8 z.
Proof.
  unfold promote. apply to_int_small.
  pose proof (to_uint8_range z). lia.
Qed.

(** ** Unfolding [run] *)

Section RunFacts.
Context {St : Type}.
Variable handle : forall T : Type, tslE T -> St -> St * T.

Lemma observe_bind_cases {R U : Type} (t : prog R) (k : R -> prog U) :
  observe (ITree.bind t k)
  = match observe t with
    | RetF r => observe (k r)
    | TauF t' => TauF (ITree.bind t' k)
    | VisF e h => VisF e (fun x => ITree.bind (h x) k)
    end.
Proof.
  change (observe (ITree.bind t k))
    with (observe (match observe t with
                   | RetF r => k r
                   | TauF t0 => Tau (ITree.bind t0 k)
                   | VisF e ke => Vis e (fun x => ITree.bind (ke x) k)
                   end)).
  destruct (observe t); reflexivity.
Qed.

Lemma run_unfold {R : Type} (n : nat) (t : prog R) (s : St) :
  run handle n t s
  = match observe t with
    | RetF r => mkExec [] s (Some r) n
    | TauF t' =>
        match n with
        | O => mkExec [] s None O
        | S n => run handle n t' s
        end
    | VisF e k =>
        match n with
        | O => mkExec [] s None O
        | S n =>
            let (s1, x) := handle _ e s in
            logged (Call e x) (run handle n (k x) s1)
        end
    end.
Proof. destruct n; reflexivity. Qed.

Lemma run_observe {R : Type} (n : nat) (t u : prog R) (s : St) :
  observe t = observe u -> run handle n t s = run handle n u s.
Proof.
  intros H. rewrite (run_unfold n t), (run_unfold n u), H. reflexivity.
Qed.

Lemma run_ret {R : Type} (n : nat) (r : R) (s : St) :
  run handle n (Ret r) s = mkExec [] s (Some r) n.
Proof. rewrite run_unfold. reflexivity. Qed.

Lemma run_call {T : Type} (n : nat) (e : tslE T) (s : St) :
  run handle (S n) (ITree.trigger e) s
  = mkExec [Call e (snd (handle _ e s))] (fst (handle _ e s))
      (Some (snd (handle _ e s))) n.
Proof.
  rewrite run_unfold. simpl. destruct (handle T e s) as [s1 x].
  rewrite run_ret. reflexivity.
Qed.

Lemma exec_eta {R : Type} (x : exec St R) :
  mkExec (log x) (env x) (result x) (fuel_left x) = x.
Proof. destruct x; reflexivity. Qed.

Lemma then_run_ret {R U : Type} (r : R) (n : nat) (s : St)
    (k : R -> nat -> St -> exec St U) :
  then_run (mkExec [] s (Some r) n) k = k r n s.
Proof. unfold then_run; simpl. apply exec_eta. Qed.

Lemma fuel_left_le {R : Type} (n : nat) :
  forall (t : prog R) (s : St), (fuel_left (run handle n t s) <= n)%nat.
Proof.
  induction n as [|n IH]; intros t s; rewrite run_unfold;
    destruct (observe t) as [r|t'|X e h]; simpl; try lia.
  - specialize (IH t' s). lia.
  - destruct (handle X e s) as [s1 x]. simpl.
    specialize (IH (h x) s1). lia.
Qed.

(** Once a program has returned, more fuel changes nothing but the fuel
    left over. *)
Lemma run_more_fuel {R : Type} (n : nat) :
  forall (t : prog R) (s : St) (r : R),
    result (run handle n t s) = Some r ->
    forall m : nat, (n <= m)%nat ->
      run handle m t s
      = mkExec (log (run handle n t s)) (env (run handle n t s)) (Some r)
          (fuel_left (run handle n t s) + (m - n)).
Proof.
  induction n as [|n IH]; intros t s r Hr m Hm;
    rewrite (run_unfold m t); rewrite (run_unfold _ t) in Hr |- *;
    destruct (observe t) as [r'|t'|X e h]; simpl in Hr |- *;
    try discriminate.
  - injection Hr as ->. f_equal. lia.
  - injection Hr as ->. f_equal. lia.
  - destruct m as [|m]; [lia|].
    rewrite (IH t' s r Hr m) by lia. reflexivity.
  - destruct m as [|m]; [lia|].
    destruct (handle X e s) as [s1 x]. simpl in Hr |- *.
    rewrite (IH (h x) s1 r Hr m) by lia. reflexivity.
Qed.

(** More fuel only extends the log. *)
Lemma run_log_prefix {R : Type} (n : nat) :
  forall (t : prog R) (s : St) (m : nat), (n <= m)%nat ->
    exists l', log (run handle m t s) = (log (run handle n t s) ++ l')%list.
Proof.
  induction n as [|n IH]; intros t s m Hm;
    rewrite (run_unfold m t), (run_unfold _ t);
    destruct (observe t) as [r|t'|X e h]; simpl;
    try (eexists; reflexivity).
  - destruct m as [|m]; [lia|]. apply IH. lia.
  - destruct m as [|m]; [lia|].
    destruct (handle X e s) as [s1 x]. simpl.
    destruct (IH (h x) s1 m ltac:(lia)) as (l' & ->).
    exists l'. reflexivity.
Qed.

(** Sequencing: the second part runs on the fuel the first one left. *)
Lemma run_bind {R U : Type} (k : R -> prog U) :
  forall (n : nat) (t : prog R) (s : St),
    run handle n (ITree.bind t k) s
    = then_run (run handle n t s) (fun r m s' => run handle m (k r) s').
Proof.
  induction n as [|n IH]; intros t s.
  - rewrite (run_unfold _ t).
    destruct (observe t) as [r|t'|X e h] eqn:Ht.
    + rewrite then_run_ret.
      apply run_observe. rewrite observe_bind_cases, Ht. reflexivity.
    + rewrite run_unfold, observe_bind_cases, Ht. reflexivity.
    + rewrite run_unfold, observe_bind_cases, Ht. reflexivity.
  - rewrite (run_unfold _ t).
    destruct (observe t) as [r|t'|X e h] eqn:Ht.
    + rewrite then_run_ret.
      apply run_observe. rewrite observe_bind_cases, Ht. reflexivity.
    + rewrite run_unfold, observe_bind_cases, Ht. apply IH.
    + rewrite run_unfold, observe_bind_cases, Ht.
      destruct (handle X e s) as [s1 x]. rewrite IH.
      unfold then_run, logged; simpl.
      destruct (result (run handle n (h x) s1)); reflexivity.
Qed.

Lemma run_bind_ret {R U : Type} (n : nat) (r : R) (k : R -> prog U) (s : St) :
  run handle n (ITree.bind (Ret r) k) s = run handle n (k r) s.
Proof. apply run_observe. reflexivity. Qed.

Lemma run_bind_call {T U : Type} (n : nat) (e : tslE T) (k : T -> prog U)
    (s : St) :
  run handle (S n) (ITree.bind (ITree.trigger e) k) s
  = logged (Call e (snd (handle _ e s)))
      (run handle n (k (snd (handle _ e s))) (fst (handle _ e s))).
Proof.
  rewrite run_unfold. simpl. destruct (handle T e s) as [s1 x]. simpl.
  f_equal. apply run_observe. reflexivity.
Qed.

Lemma run_bind_bind {R U V : Type} (k1 : R -> prog U) (k2 : U -> prog V) :
  forall (n : nat) (t : prog R) (s : St),
    run handle n (ITree.bind (ITree.bind t k1) k2) s
    = run handle n (ITree.bind t (fun x => ITree.bind (k1 x) k2)) s.
Proof.
  induction n as [|n IH]; intros t s;
    rewrite (run_unfold _ (ITree.bind (ITree.bind t k1) k2)),
      (run_unfold _ (ITree.bind t _)), !observe_bind_cases;
    destruct (observe t) as [r|t'|X e h];
    try (rewrite observe_bind_cases; reflexivity); try reflexivity.
  - apply IH.
  - destruct (handle X e s) as [s1 x]. f_equal. apply IH.
Qed.

(** One turn of [while (1)]: the body, then the jump back. *)
Lemma run_while_1 {R : Type} (body : prog unit) (n : nat) (s : St) :
  run handle n (while_1 (R:=R) body) s
  = then_run (run handle n body s)
      (fun _ m s' =>
         match m with
         | O => mkExec [] s' None O
         | S m' => run handle m' (while_1 body) s'
         end).
Proof.
  rewrite (run_observe n _ (ITree.bind body (fun _ => Tau (while_1 body))))
    by reflexivity.
  rewrite run_bind. unfold then_run.
  destruct (result (run handle n body s)); [|reflexivity].
  rewrite (run_unfold _ (Tau _)). reflexivity.
Qed.
End RunFacts.

(** One step of a straight-line run. *)
Ltac run_step :=
  first [ rewrite run_bind_bind | rewrite run_bind_call | rewrite run_bind_ret
        | rewrite run_call | rewrite run_ret ];
  cbn [result fuel_left env log logged fst snd app].

(** ** Monitors *)

Section MonitorFacts.
Context {M : Type}.
Variable mstep : M -> call -> option M.

Lemma mrun_app (l1 l2 : list call) :
  forall m : M,
    mrun mstep m (l1 ++ l2)
    = match mrun mstep m l1 with
      | Some m' => mrun mstep m' l2
      | None => None
      end.
Proof.
  induction l1 as [|c l1 IH]; intros m; simpl; [reflexivity|].
  destruct (mstep m c); [apply IH|reflexivity].
Qed.

Lemma mrun_cons (m : M) (c : call) (l : list call) :
  mrun mstep m (c :: l)
  = match mstep m c with
    | Some m' => mrun mstep m' l
    | None => None
    end.
Proof. reflexivity. Qed.
End MonitorFacts.

(** ** A program logic for monitors *)

Section Safe.
Context {St : Type}.
Variable handle : forall T : Type, tslE T -> St -> St * T.
Context {M : Type}.
Variable mstep : M -> call -> option M.

Lemma safe_ret {R : Type} (m : M) (r : R) (Q : R -> M -> Prop) :
  Q r m -> safe handle mstep m (Ret r) Q.
Proof.
  intros H n s. rewrite run_ret. exists m. simpl. split; [reflexivity|].
  intros r' E. injection E as <-. exact H.
Qed.

Lemma safe_call {T : Type} (m : M) (e : tslE T) (Q : T -> M -> Prop) :
  (forall x : T, exists m', mstep m (Call e x) = Some m' /\ Q x m') ->
  safe handle mstep m (ITree.trigger e) Q.
Proof.
  intros H [|n] s.
  - exists m. split; [reflexivity|]. simpl. discriminate.
  - rewrite run_call. simpl.
    destruct (H (snd (handle T e s))) as (m' & E & HQ).
    exists m'. rewrite E. split; [reflexivity|].
    intros r' Er. injection Er as <-. exact HQ.
Qed.

Lemma safe_bind {R U : Type} (m : M) (t : prog R) (k : R -> prog U)
    (Q : R -> M -> Prop) (Q' : U -> M -> Prop) :
  safe handle mstep m t Q ->
  (forall r m', Q r m' -> safe handle mstep m' (k r) Q') ->
  safe handle mstep m (ITree.bind t k) Q'.
Proof.
  intros Ht Hk n s. rewrite run_bind. unfold then_run.
  destruct (Ht n s) as (m1 & E1 & H1).
  destruct (result (run handle n t s)) as [r|].
  - destruct (Hk r m1 (H1 r eq_refl)
                (fuel_left (run handle n t s)) (env (run handle n t s)))
      as (m2 & E2 & H2).
    exists m2. simpl. rewrite mrun_app, E1. split; assumption.
  - exists m1. simpl. split; [assumption|discriminate].
Qed.

Lemma safe_call_bind {T U : Type} (m : M) (e : tslE T) (k : T -> prog U)
    (Q' : U -> M -> Prop) :
  (forall x : T, exists m', mstep m (Call e x) = Some m' /\ safe handle mstep m' (k x) Q') ->
  safe handle mstep m (ITree.bind (ITree.trigger e) k) Q'.
Proof.
  intros H.
  apply safe_bind with (Q := fun x m' => mstep m (Call e x) = Some m' /\ safe handle mstep m' (k x) Q').
  - apply safe_call. intros x. destruct (H x) as (m' & E & Hs).
    exists m'. auto.
  - intros r m' [_ Hs]. exact Hs.
Qed.

Lemma safe_weaken {R : Type} (m : M) (t : prog R) (Q Q' : R -> M -> Prop) :
  safe handle mstep m t Q -> (forall r m', Q r m' -> Q' r m') -> safe handle mstep m t Q'.
Proof.
  intros H HQ n s. destruct (H n s) as (m' & E & Hr).
  exists m'. split; [assumption|]. intros r Er. apply HQ, Hr, Er.
Qed.

(** A loop invariant [J] on the monitor keeps [while (1)] safe for ever,
    and the loop never returns. *)
Lemma safe_while_1 {R : Type} (J : M -> Prop) (body : prog unit) :
  (forall m, J m -> safe handle mstep m body (fun _ m' => J m')) ->
  forall m, J m -> safe handle mstep m (while_1 (R:=R) body) (fun _ _ => False).
Proof.
  intros Hbody m Hm n. revert m Hm.
  induction n as [n IH] using (well_founded_induction lt_wf).
  intros m Hm s. rewrite run_while_1. unfold then_run.
  destruct (Hbody m Hm n s) as (m1 & E1 & H1).
  pose proof (fuel_left_le handle n body s) as Hle.
  destruct (result (run handle n body s)) as [[]|].
  - destruct (fuel_left (run handle n body s)) as [|k] eqn:Ek.
    + exists m1. simpl. rewrite app_nil_r. split; [assumption|discriminate].
    + destruct (IH k ltac:(lia) m1 (H1 tt eq_refl) (env (run handle n body s)))
        as (m2 & E2 & H2).
      exists m2. simpl. rewrite mrun_app, E1. split; assumption.
  - exists m1. simpl. split; [assumption|discriminate].
Qed.
End Safe.

(** ** Splitting the combined reading *)

Lemma Z16_ones : 0xFFFF = Z.ones 16.
Proof. reflexivity. Qed.

Lemma high_half_range (lum : Z) :
  0 <= lum < 2 ^ 32 -> 0 <= Z.shiftr lum 16 < 2 ^ 16.
Proof.
  intros H. rewrite Z.shiftr_div_pow2 by lia. split.
  - apply Z.div_pos; lia.
  - apply Z.div_lt_upper_bound; lia.
Qed.

Lemma low_half_range (lum : Z) : 0 <= Z.land lum 0xFFFF < 2 ^ 16.
Proof.
  rewrite Z16_ones, Z.land_ones by lia. apply Z.mod_pos_bound. lia.
Qed.

Lemma ir_of_lum (lum : Z) :
  0 <= lum < 2 ^ 32 ->
  promote (to_uint16 (to_uint32 (Z.shiftr (to_uint32 lum) 16))) = Z.shiftr lum 16.
Proof.
  intros H. pose proof (high_half_range lum H) as Hh.
  unfold to_uint32 at 2. rewrite (Z.mod_small lum) by lia.
  unfold to_uint32. rewrite (Z.mod_small (Z.shiftr lum 16)) by lia.
  rewrite promote_uint16. unfold to_uint16. apply Z.mod_small. lia.
Qed.

Lemma full_of_lum (lum : Z) :
  0 <= lum < 2 ^ 32 ->
  promote (to_uint16 (to_uint32 (Z.land (to_uint32 lum) 0xFFFF))) = Z.land lum 0xFFFF.
Proof.
  intros H. pose proof (low_half_range lum) as Hl.
  unfold to_uint32 at 2. rewrite (Z.mod_small lum) by lia.
  unfold to_uint32. rewrite (Z.mod_small (Z.land lum 0xFFFF)) by lia.
  rewrite promote_uint16. unfold to_uint16. apply Z.mod_small. lia.
Qed.

(** [(lum >> 16) << 16 | (lum & 0xFFFF)] is [lum], bit by bit. *)
Lemma recombine_split (lum : Z) :
  Z.lor (Z.shiftl (Z.shiftr lum 16) 16) (Z.land lum 0xFFFF) = lum.
Proof.
  rewrite Z16_ones. apply Z.bits_inj'. intros n Hn.
  rewrite Z.lor_spec, Z.land_spec, Z.shiftl_spec by lia.
  destruct (Z.ltb_spec n 16) as [Hlt|Hge].
  - rewrite Z.testbit_neg_r by lia.
    rewrite Z.ones_spec_low by lia. simpl. apply andb_true_r.
  - rewrite Z.shiftr_spec by lia.
    rewrite Z.ones_spec_high by lia.
    replace (n - 16 + 16) with n by lia.
    rewrite andb_false_r. apply orb_false_r.
Qed.

Lemma split_recombine_high (ir full : Z) :
  0 <= full < 2 ^ 16 ->
  Z.shiftr (Z.lor (Z.shiftl ir 16) full) 16 = ir.
Proof.
  intros H. rewrite Z.shiftr_lor, Z.shiftr_shiftl_l by lia.
  replace (16 - 16) with 0 by lia. rewrite Z.shiftl_0_r.
  rewrite (Z.shiftr_div_pow2 full) by lia.
  rewrite Z.div_small by lia. apply Z.lor_0_r.
Qed.

Lemma split_recombine_low (ir full : Z) :
  0 <= full < 2 ^ 16 ->
  Z.land (Z.lor (Z.shiftl ir 16) full) 0xFFFF = full.
Proof.
  intros H. rewrite Z16_ones, Z.land_lor_distr_l, !Z.land_ones by lia.
  rewrite Z.shiftl_mul_pow2 by lia.
  rewrite Z.mod_mul by lia. rewrite Z.mod_small by lia. reflexivity.
Qed.

Lemma recombine_range (ir full : Z) :
  0 <= ir < 2 ^ 16 -> 0 <= full < 2 ^ 16 ->
  0 <= Z.lor (Z.shiftl ir 16) full < 2 ^ 32.
Proof.
  intros Hi Hf.
  assert (Hd : Z.land (Z.shiftl ir 16) full = 0).
  { apply Z.bits_inj'. intros n Hn.
    rewrite Z.land_spec, Z.bits_0, Z.shiftl_spec by lia.
    destruct (Z.ltb_spec n 16) as [Hlt|Hge].
    - rewrite Z.testbit_neg_r by lia. reflexivity.
    - rewrite (Z.bits_above_log2 full n); [apply andb_false_r|lia|].
      destruct (Z.eq_dec full 0) as [->|Hnz]; [simpl; lia|].
      assert (Z.log2 full < 16) by (apply Z.log2_lt_pow2; lia). lia. }
  rewrite <- Z.lxor_lor, <- Z.add_nocarry_lxor by assumption.
  rewrite Z.shiftl_mul_pow2 by lia. lia.
Qed.

(** ** advancedRead *)

Lemma advancedRead_same : tsl2591_interrupt.advancedRead = tsl2591.advancedRead.
Proof. reflexivity. Qed.

(** Whatever the environment, [advancedRead] prints one reading, computed
    from the combined value [getFullLuminosity] returned. *)
Lemma advancedRead_readings {St : Type}
    (handle : forall T : Type, tslE T -> St -> St * T)
    (s s1 : St) (lum : Z) (fuel : nat) :
  handle _ tsl_getFullLuminosity s = (s1, lum) ->
  (3 <= fuel)%nat ->
  readings (log (run handle fuel tsl2591.advancedRead s))
  = [(promote (to_uint16 (to_uint32 (Z.shiftr (to_uint32 lum) 16))),
      promote (to_uint16 (to_uint32 (Z.land (to_uint32 lum) 0xFFFF))),
      to_int (promote (to_uint16 (to_uint32 (Z.land (to_uint32 lum) 0xFFFF)))
              - promote (to_uint16 (to_uint32 (Z.shiftr (to_uint32 lum) 16)))))].
Proof.
  intros Hlum Hfuel.
  destruct fuel as [|[|[|fuel]]]; try lia.
  unfold tsl2591.advancedRead.
  run_step. rewrite Hlum; cbn [fst snd]. repeat run_step.
  reflexivity.
Qed.

(** C2.  For every 32-bit combined value [lum] the collaborator returns,
    [advancedRead] (in both programs) prints as IR the high 16 bits of
    [lum], as Full its low 16 bits, and, whenever Full >= IR, as Visible the
    difference Full - IR. *)
Theorem advancedRead_splits_reading {St : Type}
    (handle : forall T : Type, tslE T -> St -> St * T)
    (s s1 : St) (lum : Z) (fuel : nat) :
  handle _ tsl_getFullLuminosity s = (s1, lum) ->
  0 <= lum < 2 ^ 32 ->
  (3 <= fuel)%nat ->
  exists ir full visible : Z,
    readings (log (run handle fuel tsl2591.advancedRead s))
      = [(ir, full, visible)] /\
    readings (log (run handle fuel tsl2591_interrupt.advancedRead s))
      = [(ir, full, visible)] /\
    ir = Z.shiftr lum 16 /\
    full = Z.land lum 0xFFFF /\
    (ir <= full -> visible = full - ir).
Proof.
  intros Hlum Hrange Hfuel.
  rewrite advancedRead_same.
  rewrite (advancedRead_readings handle s s1 lum fuel Hlum Hfuel).
  rewrite ir_of_lum, full_of_lum by assumption.
  do 3 eexists. repeat split.
  intros _. apply to_int_small.
  pose proof (high_half_range lum Hrange).
  pose proof (low_half_range lum). lia.
Qed.

(** C1, as the code has it.  When the collaborator returns 0x03E801F4,
    [advancedRead] (in both programs) prints IR 1000 and Full 500, and the
    Visible value it prints is the [int] difference -500: the two [uint16_t]
    operands are promoted to [int] before the subtraction.  65036 is the
    residue of that value modulo 65536. *)
Theorem advancedRead_scenario {St : Type}
    (handle : forall T : Type, tslE T -> St -> St * T)
    (s s1 : St) (fuel : nat) :
  handle _ tsl_getFullLuminosity s = (s1, 0x03E801F4) ->
  (3 <= fuel)%nat ->
  readings (log (run handle fuel tsl2591.advancedRead s))
    = [(1000, 500, -500)] /\
  readings (log (run handle fuel tsl2591_interrupt.advancedRead s))
    = [(1000, 500, -500)] /\
  (-500) mod 2 ^ 16 = 65036.
Proof.
  intros Hlum Hfuel.
  rewrite advancedRead_same.
  rewrite (advancedRead_readings handle s s1 _ fuel Hlum Hfuel).
  repeat split.
Qed.

(** C9.  The split is lossless.  For a 32-bit [lum], the IR and Full values
    [advancedRead] prints are [lum >> 16] and [lum & 0xFFFF], both 16-bit,
    and [(IR << 16) | Full] is [lum] again; conversely any pair of 16-bit
    values [ir], [full] recombines to a 32-bit value, and if that value is
    what the collaborator returned, the pair printed is [ir], [full]. *)
Theorem advancedRead_split_lossless {St : Type}
    (handle : forall T : Type, tslE T -> St -> St * T)
    (s s1 : St) (lum ir full : Z) (fuel : nat) :
  handle _ tsl_getFullLuminosity s = (s1, lum) ->
  (3 <= fuel)%nat ->
  0 <= lum < 2 ^ 32 ->
  0 <= ir < 2 ^ 16 ->
  0 <= full < 2 ^ 16 ->
  (exists i f v : Z,
     readings (log (run handle fuel tsl2591.advancedRead s)) = [(i, f, v)] /\
     readings (log (run handle fuel tsl2591_interrupt.advancedRead s))
       = [(i, f, v)] /\
     i = Z.shiftr lum 16 /\ f = Z.land lum 0xFFFF /\
     0 <= i < 2 ^ 16 /\ 0 <= f < 2 ^ 16 /\
     Z.lor (Z.shiftl i 16) f = lum /\
     (lum = Z.lor (Z.shiftl ir 16) full -> i = ir /\ f = full)) /\
  0 <= Z.lor (Z.shiftl ir 16) full < 2 ^ 32.
Proof.
  intros Hlum Hfuel Hrange Hir Hfull.
  split; [|apply recombine_range; assumption].
  rewrite advancedRead_same.
  rewrite (advancedRead_readings handle s s1 lum fuel Hlum Hfuel).
  rewrite ir_of_lum, full_of_lum by assumption.
  do 3 eexists.
  split; [reflexivity|]. split; [reflexivity|].
  split; [reflexivity|]. split; [reflexivity|].
  split; [apply high_half_range; assumption|].
  split; [apply low_half_range|].
  split; [apply recombine_split|].
  intros ->. split.
  - apply split_recombine_high; assumption.
  - apply split_recombine_low; assumption.
Qed.

(** ** getStatus *)

Lemma land_pow2 (x k : Z) :
  0 <= k -> Z.land x (2 ^ k) = if Z.testbit x k then 2 ^ k else 0.
Proof.
  intros Hk. apply Z.bits_inj'. intros n Hn.
  rewrite Z.land_spec, Z.pow2_bits_eqb by assumption.
  destruct (Z.eqb_spec k n) as [->|Hne].
  - destruct (Z.testbit x n); simpl.
    + rewrite Z.pow2_bits_eqb, Z.eqb_refl by assumption. reflexivity.
    + symmetry. apply Z.bits_0.
  - rewrite andb_false_r. destruct (Z.testbit x k).
    + rewrite Z.pow2_bits_eqb by assumption.
      symmetry. apply Z.eqb_neq. assumption.
    + symmetry. apply Z.bits_0.
Qed.

Lemma c_true_bit (x k : Z) :
  0 <= k -> c_true (Z.land x (2 ^ k)) = Z.testbit x k.
Proof.
  intros Hk. rewrite land_pow2 by assumption. unfold c_true.
  destruct (Z.testbit x k); [|reflexivity].
  destruct (Z.eqb_spec (2 ^ k) 0) as [E|_]; [|reflexivity].
  pose proof (Z.pow_pos_nonneg 2 k). lia.
Qed.

Lemma getStatus_log {St : Type}
    (handle : forall T : Type, tslE T -> St -> St * T)
    (s s1 : St) (x : Z) (fuel : nat) :
  handle _ tsl_getStatus s = (s1, x) ->
  0 <= x < 2 ^ 8 ->
  (5 <= fuel)%nat ->
  log (run handle fuel tsl2591_interrupt.getStatus s)
  = (Call tsl_getStatus x
     :: (if Z.testbit x 4
         then [Call (printf "ALS Interrupt occured\n" []) tt] else [])
     ++ (if Z.testbit x 5
         then [Call (printf "No-persist Interrupt occured\n" []) tt] else [])
     ++ [Call (printf "Status: %x\n" [arg_int x]) tt;
         Call tsl_clearInterrupt tt])%list
  /\ result (run handle fuel tsl2591_interrupt.getStatus s) = Some tt.
Proof.
  intros Hx Hrange Hfuel.
  destruct fuel as [|[|[|[|[|fuel]]]]]; try lia.
  unfold tsl2591_interrupt.getStatus.
  assert (Hb : to_uint8 x = x) by (apply Z.mod_small; lia).
  assert (Hp : promote (to_uint8 x) = x) by (rewrite promote_uint8; exact Hb).
  run_step. rewrite Hx; cbn [fst snd]. rewrite Hp.
  change 0x10 with (2 ^ 4). change 0x20 with (2 ^ 5).
  rewrite !c_true_bit by lia.
  destruct (Z.testbit x 4), (Z.testbit x 5); unfold when;
    repeat run_step;
    repeat match goal with
           | |- context [snd (handle unit ?e ?s)] =>
               destruct (snd (handle unit e s))
           end;
    split; reflexivity.
Qed.

(** C5.  For every status byte [x] the collaborator returns, [getStatus]
    prints the ALS line exactly when bit 4 (mask 0x10) of [x] is set and the
    no-persist line exactly when bit 5 (mask 0x20) is set; each line depends
    on its own bit alone, and no other bit of [x] is tested: the rest of
    what [getStatus] does is to print [x] and clear the interrupt. *)
Theorem getStatus_reports {St : Type}
    (handle : forall T : Type, tslE T -> St -> St * T)
    (s s1 : St) (x : Z) (fuel : nat) :
  handle _ tsl_getStatus s = (s1, x) ->
  0 <= x < 2 ^ 8 ->
  (5 <= fuel)%nat ->
  printed "ALS Interrupt occured\n"
    (log (run handle fuel tsl2591_interrupt.getStatus s)) = Z.testbit x 4 /\
  printed "No-persist Interrupt occured\n"
    (log (run handle fuel tsl2591_interrupt.getStatus s)) = Z.testbit x 5 /\
  log (run handle fuel tsl2591_interrupt.getStatus s)
  = (Call tsl_getStatus x
     :: (if Z.testbit x 4
         then [Call (printf "ALS Interrupt occured\n" []) tt] else [])
     ++ (if Z.testbit x 5
         then [Call (printf "No-persist Interrupt occured\n" []) tt] else [])
     ++ [Call (printf "Status: %x\n" [arg_int x]) tt;
         Call tsl_clearInterrupt tt])%list.
Proof.
  intros Hx Hrange Hfuel.
  destruct (getStatus_log handle s s1 x fuel Hx Hrange Hfuel) as [-> _].
  destruct (Z.testbit x 4), (Z.testbit x 5); repeat split.
Qed.

(** ** Against the simulated sensor *)

Ltac sensor_step :=
  first [ rewrite run_bind_bind | rewrite run_bind_call | rewrite run_bind_ret
        | rewrite run_call | rewrite run_ret ];
  cbn [result fuel_left env log logged fst snd app sensor_handle with_status
       present chip_id gain_set timing_set window status pending].

Ltac exists_log k :=
  eexists; exists k; split; [f_equal; lia | repeat split; lia].

Lemma getStatus_on_sensor (lux : Z -> Z -> float32) (s : sensor) (fuel : nat) :
  0 <= status s < 2 ^ 8 ->
  (5 <= fuel)%nat ->
  exists (l : list call) (k : nat),
    run (sensor_handle lux) fuel tsl2591_interrupt.getStatus s
    = mkExec l (with_status 0 s) (Some tt) (fuel - k) /\
    status_reads l = [status s] /\
    status_lines l = [status s] /\
    (k <= 5)%nat.
Proof.
  intros Hrange Hfuel.
  do 5 (destruct fuel as [|fuel]; [lia|]).
  destruct s as [pr id g t w st pe]. simpl in Hrange.
  unfold tsl2591_interrupt.getStatus.
  assert (Hb : to_uint8 st = st) by (apply Z.mod_small; lia).
  assert (Hp : promote (to_uint8 st) = st) by (rewrite promote_uint8; exact Hb).
  sensor_step. rewrite Hp.
  destruct (c_true (Z.land st 16)), (c_true (Z.land st 32)); unfold when;
    repeat sensor_step; unfold logged; cbn [log env result fuel_left].
  - exists_log 5%nat.
  - exists_log 4%nat.
  - exists_log 4%nat.
  - exists_log 3%nat.
Qed.

(** C4.  On the simulated sensor, [getStatus] obtains and prints exactly the
    status byte latched at the sensor and leaves the latch cleared: two
    calls in a row, with nothing latched in between, obtain and print the
    latched byte and then zero. *)
Theorem getStatus_reads_then_clears (lux : Z -> Z -> float32)
    (s : sensor) (fuel : nat) :
  0 <= status s < 2 ^ 8 ->
  (10 <= fuel)%nat ->
  let once := run (sensor_handle lux) fuel tsl2591_interrupt.getStatus s in
  let twice :=
    run (sensor_handle lux) fuel
      (tsl2591_interrupt.getStatus;; tsl2591_interrupt.getStatus) s in
  result once = Some tt /\
  status_reads (log once) = [status s] /\
  status_lines (log once) = [status s] /\
  env once = with_status 0 s /\
  result twice = Some tt /\
  status_reads (log twice) = [status s; 0] /\
  status_lines (log twice) = [status s; 0] /\
  env twice = with_status 0 s.
Proof.
  intros Hrange Hfuel once twice. subst once twice.
  destruct (getStatus_on_sensor lux s fuel Hrange ltac:(lia))
    as (l1 & k1 & E1 & Hr1 & Hl1 & Hk1).
  destruct (getStatus_on_sensor lux (with_status 0 s) (fuel - k1)
              ltac:(simpl; lia) ltac:(lia))
    as (l2 & k2 & E2 & Hr2 & Hl2 & Hk2).
  rewrite run_bind, E1. unfold then_run. cbn [result fuel_left env log].
  rewrite E2. cbn [result fuel_left env log].
  unfold status_reads, status_lines in *. rewrite !flat_map_app.
  rewrite Hr1, Hl1, Hr2, Hl2. repeat split.
Qed.

(** C6.  On the simulated sensor, for each of the four gains (and each of
    the six integration times), [configureSensor] selecting that gain,
    followed by [getGain], returns the gain just set, in both programs; the
    gain [configureSensor] itself reads back is that gain too. *)
Theorem configure_then_getGain (lux : Z -> Z -> float32)
    (gain : tsl2591Gain_t) (integration : tsl2591IntegrationTime_t)
    (s : sensor) (fuel : nat) :
  (11 <= fuel)%nat ->
  let poll :=
    run (sensor_handle lux) fuel
      (tsl2591.configureSensor_with gain integration;;
       ITree.trigger tsl_getGain) s in
  let intr :=
    run (sensor_handle lux) fuel
      (tsl2591_interrupt.configureSensor_with gain integration;;
       ITree.trigger tsl_getGain) s in
  result poll = Some (listed gain) /\
  gain_reads (log poll) = [listed gain; listed gain] /\
  gain_set (env poll) = gain /\
  result intr = Some (listed gain) /\
  gain_reads (log intr) = [listed gain; listed gain] /\
  gain_set (env intr) = gain.
Proof.
  intros Hfuel poll intr. subst poll intr.
  assert (H1 : result (run (sensor_handle lux) 11
                         (tsl2591.configureSensor_with gain integration;;
                          ITree.trigger tsl_getGain) s) = Some (listed gain))
    by (destruct gain; vm_compute; reflexivity).
  assert (H2 : result (run (sensor_handle lux) 11
                         (tsl2591_interrupt.configureSensor_with gain integration;;
                          ITree.trigger tsl_getGain) s) = Some (listed gain))
    by (destruct gain; vm_compute; reflexivity).
  rewrite (run_more_fuel _ 11 _ s (listed gain) H1 fuel Hfuel).
  rewrite (run_more_fuel _ 11 _ s (listed gain) H2 fuel Hfuel).
  destruct gain, s; vm_compute; repeat apply conj; reflexivity.
Qed.

Lemma configureSensor_as_written :
  tsl2591.configureSensor
  = tsl2591.configureSensor_with TSL2591_GAIN_MED TSL2591_INTEGRATIONTIME_300MS
  /\ tsl2591_interrupt.configureSensor
     = tsl2591_interrupt.configureSensor_with TSL2591_GAIN_MED
         TSL2591_INTEGRATIONTIME_100MS.
Proof. split; reflexivity. Qed.


(** ** Deriving safety of the two programs *)

Section SafeRules.
Context {St : Type}.
Variable handle : forall T : Type, tslE T -> St -> St * T.
Context {M : Type}.
Variable mstep : M -> call -> option M.

Lemma safe_call_to {T : Type} (m m' : M) (e : tslE T) :
  (forall x : T, mstep m (Call e x) = Some m') ->
  safe handle mstep m (ITree.trigger e) (fun _ m'' => m'' = m').
Proof.
  intros H. apply safe_call. intros x. exists m'. split; [apply H|reflexivity].
Qed.

Lemma safe_ret_to {R : Type} (m : M) (r : R) :
  safe handle mstep m (Ret r) (fun _ m' => m' = m).
Proof. apply safe_ret. reflexivity. Qed.

Lemma safe_never {R : Type} (m : M) (t : prog R) (Q : R -> M -> Prop) :
  safe handle mstep m t (fun _ _ => False) -> safe handle mstep m t Q.
Proof. intros H. apply safe_weaken with (1 := H). intros _ _ []. Qed.

Lemma safe_result {R : Type} (m : M) (t : prog R) :
  safe handle mstep m t (fun _ _ => False) ->
  forall (n : nat) (s : St), result (run handle n t s) = None.
Proof.
  intros H n s. destruct (H n s) as (m' & _ & Hr).
  destruct (result (run handle n t s)) as [r|]; [|reflexivity].
  destruct (Hr r eq_refl).
Qed.

Lemma safe_log {R : Type} (m : M) (t : prog R) (Q : R -> M -> Prop) :
  safe handle mstep m t Q ->
  forall (n : nat) (s : St),
  exists m', mrun mstep m (log (run handle n t s)) = Some m'.
Proof. intros H n s. destruct (H n s) as (m' & E & _). eauto. Qed.
End SafeRules.

(** Walks through straight-line code, branching on [when] and on the gain
    read back (the four cases of the [switch], and no case); loops are left to the caller, who supplies the invariant. *)
Ltac safe_walk :=
  lazymatch goal with
  | |- safe _ _ _ (ITree.bind (ITree.trigger _) _) _ =>
      apply safe_call_bind; intros ?; eexists; split; [cbv; reflexivity|];
      safe_walk
  | |- safe _ _ _ (ITree.trigger _) _ =>
      eapply safe_call_to; intros ?; cbv; reflexivity
  | |- safe _ _ _ (Ret _) _ => eapply safe_ret_to
  | |- safe _ _ _ (ITree.bind _ _) _ =>
      eapply safe_bind; [safe_walk | intros ? ? ->; safe_walk]
  | |- safe _ _ _ (when (negb ?b) _) _ =>
      destruct b; cbn [negb when]; safe_walk
  | |- safe _ _ _ (when ?c _) _ =>
      destruct c; cbn [when]; safe_walk
  | |- safe _ _ _ (match ?g with
                   | listed _ => _
                   | unlisted => _
                   end) _ =>
      destruct g as [[| | |]|]; safe_walk
  | |- safe _ _ _ (while_1 _) _ => idtac
  end.

(** A loop whose body brings the monitor back to where it was. *)
Ltac safe_loop :=
  lazymatch goal with
  | |- safe _ _ ?m (while_1 _) _ =>
      apply safe_never;
      apply safe_while_1 with (J := fun m' => m' = m); [|reflexivity];
      intros ? ->
  end.

Ltac unfold_interrupt :=
  unfold tsl2591_interrupt.main, tsl2591_interrupt.configureSensor,
    tsl2591_interrupt.configureSensor_with,
    tsl2591_interrupt.configureSensor_for, tsl2591_interrupt.advancedRead,
    tsl2591_interrupt.getStatus.

Ltac unfold_poll :=
  unfold tsl2591.main, tsl2591.configureSensor,
    tsl2591.configureSensor_with, tsl2591.advancedRead.


Lemma interrupt_main_halts {St : Type}
    (handle : forall T : Type, tslE T -> St -> St * T) :
  safe handle halt_step Starting tsl2591_interrupt.main (fun _ _ => False).
Proof.
  unfold_interrupt. safe_walk; safe_loop; safe_walk.
Qed.

Lemma poll_main_halts {St : Type}
    (handle : forall T : Type, tslE T -> St -> St * T) :
  safe handle halt_step Starting tsl2591.main (fun _ _ => False).
Proof.
  unfold_poll. safe_walk; safe_loop; safe_walk.
Qed.

Lemma interrupt_main_clear_first {St : Type}
    (handle : forall T : Type, tslE T -> St -> St * T) :
  safe handle clear_first_step false tsl2591_interrupt.main (fun _ _ => False).
Proof.
  unfold_interrupt. safe_walk; safe_loop; safe_walk.
Qed.

Lemma pace_inv_loop {St : Type}
    (handle : forall T : Type, tslE T -> St -> St * T)
    {R : Type} (body : prog unit) :
  safe handle pace_step None body (fun _ m => m = Some [500]) ->
  safe handle pace_step (Some [500]) body (fun _ m => m = Some [500]) ->
  safe handle pace_step None (while_1 (R:=R) body) (fun _ _ => False).
Proof.
  intros H0 H1.
  apply safe_while_1 with (J := fun m => m = None \/ m = Some [500]);
    [|left; reflexivity].
  intros m [-> | ->]; [apply safe_weaken with (1 := H0)
                      |apply safe_weaken with (1 := H1)];
    intros _ ? ->; right; reflexivity.
Qed.

Ltac safe_pace :=
  lazymatch goal with
  | |- safe _ _ None (while_1 (Ret tt)) _ => safe_loop; safe_walk
  | |- safe _ _ None (while_1 _) _ => apply pace_inv_loop; safe_walk
  end.

Lemma interrupt_main_paced {St : Type}
    (handle : forall T : Type, tslE T -> St -> St * T) :
  safe handle pace_step None tsl2591_interrupt.main (fun _ _ => False).
Proof.
  unfold_interrupt. safe_walk; safe_pace.
Qed.

Lemma poll_main_paced {St : Type}
    (handle : forall T : Type, tslE T -> St -> St * T) :
  safe handle pace_step None tsl2591.main (fun _ _ => False).
Proof.
  unfold_poll. safe_walk; safe_pace.
Qed.

(** ** What an accepted log looks like *)

Lemma mrun_each (ok : call -> bool) (l : list call) :
  forall m m', mrun (each ok) m l = Some m' -> forallb ok l = true.
Proof.
  induction l as [|c l IH]; intros m m' H; simpl in *; [reflexivity|].
  unfold each at 1 in H. destruct (ok c); [|discriminate].
  simpl. eapply IH, H.
Qed.

Lemma says_eq (msg : string) (c : call) :
  says msg c = true -> c = Call (printf msg []) tt.
Proof.
  destruct c as [T e x]. destruct e; simpl; try discriminate.
  destruct args; [|discriminate].
  intros H. apply String.eqb_eq in H. subst. destruct x. reflexivity.
Qed.

Lemma is_clearInterrupt_eq (c : call) :
  is_clearInterrupt c = true -> c = Call tsl_clearInterrupt tt.
Proof.
  destruct c as [T e x]. destruct e; simpl; try discriminate.
  intros _. destruct x. reflexivity.
Qed.

(** The handshake monitor never goes back to [Starting], and while it is
    there the program has only printed. *)
Lemma halt_before (a : list call) :
  forall m, mrun halt_step m a = Some Starting ->
    m = Starting /\
    existsb is_configuration a = false /\ existsb is_poll a = false.
Proof.
  induction a as [|c a IH]; intros m H; simpl in H.
  - injection H as ->. repeat split.
  - destruct m; simpl in H.
    + destruct c as [T e x].
      destruct e; simpl in H; try discriminate.
      * apply IH in H. destruct H as [H _]. destruct x; discriminate.
      * apply IH in H. destruct H as (_ & Hc & Hp).
        repeat split; simpl; assumption.
    + destruct (is_begin c); [discriminate|].
      apply IH in H. destruct H as [H _]. discriminate.
    + destruct (is_no_sensor_message c); [|discriminate].
      apply IH in H. destruct H as [H _]. discriminate.
    + discriminate.
Qed.

Lemma halt_after (b : list call) (m : handshake) :
  mrun halt_step NotFound b = Some m ->
  b = [] \/
  b = [Call (printf "No sensor found ... check your wiring?\n" []) tt].
Proof.
  destruct b as [|c b]; [left; reflexivity|]. simpl.
  destruct (is_no_sensor_message c) eqn:E; [|discriminate].
  destruct b as [|c' b]; [|discriminate].
  intros _. right. apply says_eq in E. subst. reflexivity.
Qed.

Lemma halt_spec (l : list call) (m : handshake) :
  mrun halt_step Starting l = Some m ->
  forall a b, l = (a ++ Call tsl_begin false :: b)%list ->
    existsb is_configuration l = false /\
    existsb is_poll l = false /\
    (b = [] \/
     b = [Call (printf "No sensor found ... check your wiring?\n" []) tt]).
Proof.
  intros H a b ->. rewrite mrun_app in H.
  destruct (mrun halt_step Starting a) as [m1|] eqn:Ea; [|discriminate].
  assert (m1 = Starting) as ->.
  { rewrite mrun_cons in H.
    destruct m1; simpl in H; try discriminate; reflexivity. }
  apply halt_before in Ea. destruct Ea as (_ & Hc & Hp).
  rewrite mrun_cons in H. simpl in H. apply halt_after in H.
  rewrite !existsb_app, Hc, Hp. simpl.
  destruct H as [-> | ->]; repeat split; auto.
Qed.

Lemma pace_no_poll (mid : list call) :
  existsb is_poll mid = false ->
  forall d, mrun pace_step (Some d) mid = Some (Some (d ++ delays mid)%list).
Proof.
  induction mid as [|c mid IH]; intros H d; simpl in *.
  - rewrite app_nil_r. reflexivity.
  - apply orb_false_iff in H. destruct H as [Hc Hmid].
    unfold pace_step at 1. rewrite Hc. simpl.
    rewrite (IH Hmid), app_assoc. reflexivity.
Qed.

Lemma one_delay_of_500_eq (d : list Z) : one_delay_of_500 d = true -> d = [500].
Proof.
  destruct d as [|ms [|ms' d]]; simpl; try discriminate.
  intros H. apply Z.eqb_eq in H. subst. reflexivity.
Qed.

Lemma pace_poll (m m' : option (list Z)) (p : call) :
  is_poll p = true -> pace_step m p = Some m' ->
  m' = Some [] /\ forall d, m = Some d -> d = [500].
Proof.
  intros Hp. unfold pace_step. rewrite Hp.
  destruct m as [d|].
  - destruct (one_delay_of_500 d) eqn:E; [|discriminate].
    intros H. injection H as <-. split; [reflexivity|].
    intros d' Hd. injection Hd as <-. apply one_delay_of_500_eq, E.
  - intros H. injection H as <-. split; [reflexivity|discriminate].
Qed.

Lemma pace_spec (l : list call) (m m' : option (list Z)) :
  mrun pace_step m l = Some m' ->
  forall a p mid q b, l = (a ++ p :: mid ++ q :: b)%list ->
    is_poll p = true -> is_poll q = true -> existsb is_poll mid = false ->
    delays mid = [500].
Proof.
  intros H a p mid q b -> Hp Hq Hmid. rewrite mrun_app in H.
  destruct (mrun pace_step m a) as [m1|]; [|discriminate].
  rewrite mrun_cons in H.
  destruct (pace_step m1 p) as [m2|] eqn:E1; [|discriminate].
  apply (pace_poll _ _ _ Hp) in E1. destruct E1 as [-> _].
  rewrite mrun_app, (pace_no_poll mid Hmid), mrun_cons in H.
  destruct (pace_step (Some ([] ++ delays mid)%list) q) as [m3|] eqn:E2;
    [|discriminate].
  apply (pace_poll _ _ _ Hq) in E2. destruct E2 as [_ E2].
  apply E2. reflexivity.
Qed.

Lemma clear_first_last (a : list call) :
  forall m, mrun clear_first_step m a = Some true ->
    (a = [] /\ m = true) \/
    exists a', a = (a' ++ [Call tsl_clearInterrupt tt])%list.
Proof.
  induction a as [|c a IH]; intros m H; simpl in H.
  - injection H as ->. left. split; reflexivity.
  - right. destruct (clear_first_step m c) as [m1|] eqn:E; [|discriminate].
    apply IH in H. destruct H as [[-> ->] | (a' & ->)].
    + exists []. simpl. f_equal. apply is_clearInterrupt_eq.
      unfold clear_first_step in E.
      destruct (is_registerInterrupt c && negb m); [discriminate|].
      injection E as E. exact E.
    + exists (c :: a'). reflexivity.
Qed.

Lemma clear_first_spec (l : list call) (m' : bool) :
  mrun clear_first_step false l = Some m' ->
  forall a c b, l = (a ++ c :: b)%list -> is_registerInterrupt c = true ->
    exists a', a = (a' ++ [Call tsl_clearInterrupt tt])%list.
Proof.
  intros H a c b -> Hc. rewrite mrun_app in H.
  destruct (mrun clear_first_step false a) as [m1|] eqn:Ea; [|discriminate].
  rewrite mrun_cons in H.
  destruct (clear_first_step m1 c) as [m2|] eqn:E; [|discriminate].
  unfold clear_first_step in E. rewrite Hc in E.
  destruct m1; [|discriminate].
  apply clear_first_last in Ea. destruct Ea as [[_ Hf] | Ha];
    [discriminate|exact Ha].
Qed.

(** ** The two programs as a whole *)

Lemma failed_handshake_log {St : Type}
    (handle : forall T : Type, tslE T -> St -> St * T)
    (main : prog Z) (n : nat) (s : St) (a b : list call) :
  main = tsl2591.main \/ main = tsl2591_interrupt.main ->
  log (run handle n main s) = (a ++ Call tsl_begin false :: b)%list ->
  result (run handle n main s) = None /\
  existsb is_configuration (log (run handle n main s)) = false /\
  existsb is_poll (log (run handle n main s)) = false /\
  (b = [] \/
   b = [Call (printf "No sensor found ... check your wiring?\n" []) tt]).
Proof.
  intros Hmain Hlog.
  assert (Hsafe : safe handle halt_step Starting main (fun _ _ => False)).
  { destruct Hmain as [-> | ->];
      [apply poll_main_halts|apply interrupt_main_halts]. }
  split; [apply (safe_result _ _ _ _ Hsafe)|].
  destruct (safe_log _ _ _ _ _ Hsafe n s) as (m & Hm).
  exact (halt_spec _ _ Hm a b Hlog).
Qed.

(** C3.  In either program, if the handshake fails ([begin] answers
    [false]) the program halts for ever: it never returns, it calls none of
    [setGain], [setTiming], [registerInterrupt], it never polls, and after
    the failed handshake its only call is the "No sensor found" message.
    This holds against every environment and for every amount of fuel. *)
Theorem handshake_failure_halts {St : Type}
    (handle : forall T : Type, tslE T -> St -> St * T)
    (main : prog Z) (n : nat) (s : St) (a b : list call) :
  main = tsl2591.main \/ main = tsl2591_interrupt.main ->
  log (run handle n main s) = (a ++ Call tsl_begin false :: b)%list ->
  result (run handle n main s) = None /\
  existsb is_configuration (log (run handle n main s)) = false /\
  existsb is_poll (log (run handle n main s)) = false /\
  (b = [] \/
   b = [Call (printf "No sensor found ... check your wiring?\n" []) tt]).
Proof. apply failed_handshake_log. Qed.


(** C8.  In either program, against every environment, between any two
    consecutive polls ([getFullLuminosity] calls with no poll in between)
    exactly one delay is requested, and it is [thread_sleep_for(500)]: the
    same on every turn of the loop. *)
Theorem fixed_delay_between_polls {St : Type}
    (handle : forall T : Type, tslE T -> St -> St * T)
    (main : prog Z) (n : nat) (s : St) (a mid b : list call) (p q : call) :
  main = tsl2591.main \/ main = tsl2591_interrupt.main ->
  log (run handle n main s) = (a ++ p :: mid ++ q :: b)%list ->
  is_poll p = true ->
  is_poll q = true ->
  existsb is_poll mid = false ->
  delays mid = [500].
Proof.
  intros Hmain Hlog Hp Hq Hmid.
  assert (Hsafe : safe handle pace_step None main (fun _ _ => False)).
  { destruct Hmain as [-> | ->];
      [apply poll_main_paced|apply interrupt_main_paced]. }
  destruct (safe_log _ _ _ _ _ Hsafe n s) as (m & Hm).
  exact (pace_spec _ _ _ Hm a p mid q b Hlog Hp Hq Hmid).
Qed.

Lemma registerInterrupt_is_configuration (l : list call) :
  existsb is_registerInterrupt l = true -> existsb is_configuration l = true.
Proof.
  induction l as [|c l IH]; simpl; [discriminate|].
  intros H. apply orb_true_iff in H. apply orb_true_iff.
  destruct H as [H|H]; [left|right; apply IH, H].
  destruct c as [T e x]. destruct e; simpl in *; congruence.
Qed.

(** On the simulated sensor: from the moment the window is registered until
    the first poll, the status latch is clear, whatever was latched before
    the program started. *)
Lemma sensor_clear_until_first_poll (lux : Z -> Z -> float32) (s : sensor)
    (n : nat) :
  existsb is_registerInterrupt
    (log (run (sensor_handle lux) n tsl2591_interrupt.main s)) = true ->
  existsb is_poll
    (log (run (sensor_handle lux) n tsl2591_interrupt.main s)) = false ->
  status (env (run (sensor_handle lux) n tsl2591_interrupt.main s)) = 0.
Proof.
  destruct s as [pr id g t w st pe]. destruct pr.
  - do 17 (destruct n as [|n];
           [vm_compute; intros; (discriminate || reflexivity)|]).
    intros _ Hp. exfalso.
    destruct (run_log_prefix (sensor_handle lux) 17 tsl2591_interrupt.main
                (mkSensor true id g t w st pe)
                (S (S (S (S (S (S (S (S (S (S (S (S (S (S (S (S (S n)))))))))))))))))
                ltac:(lia)) as (l' & E).
    rewrite E, existsb_app in Hp. apply orb_false_iff in Hp.
    destruct Hp as [Hp _]. destruct pe as [|[lum la] pe]; vm_compute in Hp;
      discriminate.
  - intros Hr _. exfalso.
    apply registerInterrupt_is_configuration in Hr.
    do 2 (destruct n as [|n]; [vm_compute in Hr; discriminate|]).
    destruct (run_log_prefix (sensor_handle lux) 2 tsl2591_interrupt.main
                (mkSensor false id g t w st pe) (S (S n)) ltac:(lia))
      as (l' & E).
    destruct (failed_handshake_log (sensor_handle lux)
                tsl2591_interrupt.main (S (S n))
                (mkSensor false id g t w st pe)
                [Call (printf "Starting Adafruit TSL2591 interrupt Test!\n" []) tt]
                l' (or_intror eq_refl) E) as (_ & Hc & _).
    congruence.
Qed.

(** On the simulated sensor the interrupt program does get there: after 16
    calls the window is registered and nothing has been polled; the 17th
    call is the first poll. *)
Lemma sensor_reaches_first_poll (lux : Z -> Z -> float32) (s : sensor) :
  present s = true ->
  existsb is_registerInterrupt
    (log (run (sensor_handle lux) 16 tsl2591_interrupt.main s)) = true /\
  existsb is_poll
    (log (run (sensor_handle lux) 16 tsl2591_interrupt.main s)) = false /\
  existsb is_poll
    (log (run (sensor_handle lux) 17 tsl2591_interrupt.main s)) = true.
Proof.
  destruct s as [pr id g t w st pe]. intros Hp. simpl in Hp. subst pr.
  destruct pe as [|[lum la] pe]; vm_compute; repeat split.
Qed.

(** C10.  In [configureSensor] of the interrupt program, against every
    environment, each [registerInterrupt] call comes directly after a
    [clearInterrupt] call.  And on the simulated sensor, whatever status was
    latched before the program started, once the window is registered and
    until the first poll the status latch is clear: the session begins
    polling with a cleared interrupt status. *)
Theorem clearInterrupt_before_registerInterrupt {St : Type}
    (handle : forall T : Type, tslE T -> St -> St * T)
    (n : nat) (s : St) (a b : list call) (c : call)
    (lux : Z -> Z -> float32) (device : sensor) (k : nat) :
  log (run handle n tsl2591_interrupt.main s) = (a ++ c :: b)%list ->
  is_registerInterrupt c = true ->
  existsb is_registerInterrupt
    (log (run (sensor_handle lux) k tsl2591_interrupt.main device)) = true ->
  existsb is_poll
    (log (run (sensor_handle lux) k tsl2591_interrupt.main device)) = false ->
  (exists a', a = (a' ++ [Call tsl_clearInterrupt tt])%list) /\
  status (env (run (sensor_handle lux) k tsl2591_interrupt.main device)) = 0.
Proof.
  intros Hlog Hc Hreg Hpoll. split.
  - destruct (safe_log _ _ _ _ _ (interrupt_main_clear_first handle) n s)
      as (m & Hm).
    exact (clear_first_spec _ _ Hm a c b Hlog Hc).
  - apply sensor_clear_until_first_poll; assumption.
Qed.

(** ** The theorems at work on the simulated sensor *)

(** The C1 scenario as the spec states it does not hold: with the combined
    value 0x03E801F4 the Visible value printed is not 65036. *)
Lemma advancedRead_scenario_not_65036 :
  readings (log (run (sensor_handle no_lux) 3 tsl2591.advancedRead bench))
  <> [(1000, 500, 65036)].
Proof. vm_compute. discriminate. Qed.

Lemma advancedRead_scenario_witness :
  readings (log (run (sensor_handle no_lux) 3 tsl2591.advancedRead bench))
    = [(1000, 500, -500)] /\
  readings
    (log (run (sensor_handle no_lux) 3 tsl2591_interrupt.advancedRead bench))
    = [(1000, 500, -500)] /\
  (-500) mod 2 ^ 16 = 65036.
Proof.
  eapply (advancedRead_scenario (sensor_handle no_lux) bench).
  - vm_compute. reflexivity.
  - apply le_n.
Defined.

Lemma advancedRead_splits_reading_witness :
  exists ir full visible : Z,
    readings (log (run (sensor_handle no_lux) 3 tsl2591.advancedRead daylight))
      = [(ir, full, visible)] /\
    readings
      (log (run (sensor_handle no_lux) 3 tsl2591_interrupt.advancedRead daylight))
      = [(ir, full, visible)] /\
    ir = Z.shiftr 0x00640320 16 /\
    full = Z.land 0x00640320 0xFFFF /\
    (ir <= full -> visible = full - ir).
Proof.
  eapply (advancedRead_splits_reading (sensor_handle no_lux) daylight).
  - vm_compute. reflexivity.
  - split; [discriminate|reflexivity].
  - apply le_n.
Defined.

Lemma advancedRead_split_lossless_witness :
  (exists i f v : Z,
     readings (log (run (sensor_handle no_lux) 3 tsl2591.advancedRead bench))
       = [(i, f, v)] /\
     readings
       (log (run (sensor_handle no_lux) 3 tsl2591_interrupt.advancedRead bench))
       = [(i, f, v)] /\
     i = Z.shiftr 0x03E801F4 16 /\ f = Z.land 0x03E801F4 0xFFFF /\
     0 <= i < 2 ^ 16 /\ 0 <= f < 2 ^ 16 /\
     Z.lor (Z.shiftl i 16) f = 0x03E801F4 /\
     (0x03E801F4 = Z.lor (Z.shiftl 1000 16) 500 -> i = 1000 /\ f = 500)) /\
  0 <= Z.lor (Z.shiftl 1000 16) 500 < 2 ^ 32.
Proof.
  eapply (advancedRead_split_lossless (sensor_handle no_lux) bench).
  - vm_compute. reflexivity.
  - apply le_n.
  - split; [discriminate|reflexivity].
  - split; [discriminate|reflexivity].
  - split; [discriminate|reflexivity].
Defined.

Lemma getStatus_reports_witness :
  printed "ALS Interrupt occured\n"
    (log (run (sensor_handle no_lux) 5 tsl2591_interrupt.getStatus bench))
    = Z.testbit 0x11 4 /\
  printed "No-persist Interrupt occured\n"
    (log (run (sensor_handle no_lux) 5 tsl2591_interrupt.getStatus bench))
    = Z.testbit 0x11 5 /\
  log (run (sensor_handle no_lux) 5 tsl2591_interrupt.getStatus bench)
  = (Call tsl_getStatus 0x11
     :: (if Z.testbit 0x11 4
         then [Call (printf "ALS Interrupt occured\n" []) tt] else [])
     ++ (if Z.testbit 0x11 5
         then [Call (printf "No-persist Interrupt occured\n" []) tt] else [])
     ++ [Call (printf "Status: %x\n" [arg_int 0x11]) tt;
         Call tsl_clearInterrupt tt])%list.
Proof.
  eapply (getStatus_reports (sensor_handle no_lux) bench).
  - vm_compute. reflexivity.
  - split; [discriminate|reflexivity].
  - apply le_n.
Defined.

Lemma getStatus_reads_then_clears_witness :
  status_reads
    (log (run (sensor_handle no_lux) 10
            (tsl2591_interrupt.getStatus;; tsl2591_interrupt.getStatus) bench))
  = [0x11; 0].
Proof.
  apply (getStatus_reads_then_clears no_lux bench 10).
  - split; [discriminate|reflexivity].
  - apply le_n.
Defined.

Lemma configure_then_getGain_witness :
  result
    (run (sensor_handle no_lux) 11
       (tsl2591_interrupt.configureSensor_with TSL2591_GAIN_MAX
          TSL2591_INTEGRATIONTIME_600MS;;
        ITree.trigger tsl_getGain) bench)
  = Some (listed TSL2591_GAIN_MAX).
Proof.
  apply (configure_then_getGain no_lux TSL2591_GAIN_MAX
           TSL2591_INTEGRATIONTIME_600MS bench 11).
  apply le_n.
Defined.

Lemma handshake_failure_halts_witness :
  result (run (sensor_handle no_lux) 40 tsl2591_interrupt.main unplugged)
    = None /\
  existsb is_configuration
    (log (run (sensor_handle no_lux) 40 tsl2591_interrupt.main unplugged))
    = false /\
  existsb is_poll
    (log (run (sensor_handle no_lux) 40 tsl2591_interrupt.main unplugged))
    = false /\
  ([Call (printf "No sensor found ... check your wiring?\n" []) tt] = [] \/
   [Call (printf "No sensor found ... check your wiring?\n" []) tt]
   = [Call (printf "No sensor found ... check your wiring?\n" []) tt]).
Proof.
  apply (handshake_failure_halts (sensor_handle no_lux) tsl2591_interrupt.main
           40 unplugged
           [Call (printf "Starting Adafruit TSL2591 interrupt Test!\n" []) tt]).
  - right. reflexivity.
  - vm_compute. reflexivity.
Defined.


Lemma fixed_delay_between_polls_witness :
  delays
    (firstn 7
       (skipn 17
          (log (run (sensor_handle no_lux) 40 tsl2591_interrupt.main bench))))
  = [500].
Proof.
  apply (fixed_delay_between_polls (sensor_handle no_lux)
           tsl2591_interrupt.main 40 bench
           (firstn 16
              (log (run (sensor_handle no_lux) 40 tsl2591_interrupt.main bench)))
           (firstn 7
              (skipn 17
                 (log (run (sensor_handle no_lux) 40 tsl2591_interrupt.main
                         bench))))
           (skipn 25
              (log (run (sensor_handle no_lux) 40 tsl2591_interrupt.main bench)))
           (Call tsl_getFullLuminosity 0x03E801F4)
           (Call tsl_getFullLuminosity 0x00640320)).
  - right. reflexivity.
  - vm_compute. reflexivity.
  - reflexivity.
  - reflexivity.
  - vm_compute. reflexivity.
Defined.

Lemma clearInterrupt_before_registerInterrupt_witness :
  (exists a',
     firstn 14
       (log (run (sensor_handle no_lux) 40 tsl2591_interrupt.main bench))
     = (a' ++ [Call tsl_clearInterrupt tt])%list) /\
  status (env (run (sensor_handle no_lux) 16 tsl2591_interrupt.main bench)) = 0.
Proof.
  apply (clearInterrupt_before_registerInterrupt (sensor_handle no_lux)
           40 bench
           (firstn 14
              (log (run (sensor_handle no_lux) 40 tsl2591_interrupt.main bench)))
           (skipn 15
              (log (run (sensor_handle no_lux) 40 tsl2591_interrupt.main bench)))
           (Call (tsl_registerInterrupt 100 1500 TSL2591_PERSIST_60) tt)
           no_lux bench 16).
  - vm_compute. reflexivity.
  - reflexivity.
  - vm_compute. reflexivity.
  - vm_compute. reflexivity.
Defined.

(** * Further properties of the two programs *)

(** ** advancedRead, for every reading *)

(** X1.  For every 32-bit combined value, the Visible value [advancedRead]
    prints is the signed difference Full - IR: it lies between -65535 and
    65535 and is negative exactly when IR exceeds Full; it is never wrapped
    to 16 bits. *)
Theorem advancedRead_visible_signed {St : Type}
    (handle : forall T : Type, tslE T -> St -> St * T)
    (s s1 : St) (lum : Z) (fuel : nat) :
  handle _ tsl_getFullLuminosity s = (s1, lum) ->
  0 <= lum < 2 ^ 32 ->
  (3 <= fuel)%nat ->
  exists visible : Z,
    readings (log (run handle fuel tsl2591.advancedRead s))
      = [(Z.shiftr lum 16, Z.land lum 0xFFFF, visible)] /\
    readings (log (run handle fuel tsl2591_interrupt.advancedRead s))
      = [(Z.shiftr lum 16, Z.land lum 0xFFFF, visible)] /\
    visible = Z.land lum 0xFFFF - Z.shiftr lum 16 /\
    - 65535 <= visible <= 65535 /\
    (visible < 0 <-> Z.land lum 0xFFFF < Z.shiftr lum 16).
Proof.
  intros Hlum Hrange Hfuel.
  rewrite advancedRead_same.
  rewrite (advancedRead_readings handle s s1 lum fuel Hlum Hfuel).
  rewrite ir_of_lum, full_of_lum by assumption.
  pose proof (high_half_range lum Hrange) as Hh.
  pose proof (low_half_range lum) as Hl.
  rewrite to_int_small by lia.
  eexists. repeat split; lia.
Qed.

(** Destructs the answers of calls that return nothing. *)
Ltac unit_answers handle :=
  repeat match goal with
         | |- context [snd (handle unit ?e ?s)] =>
             destruct (snd (handle unit e s))
         end.

(** X2.  For every 32-bit combined value and every environment,
    [advancedRead] makes exactly three calls and returns: the poll, then
    [calculateLux] with Full as first and IR as second argument, then the
    line, whose Lux is the value [calculateLux] returned. *)
Theorem advancedRead_calls {St : Type}
    (handle : forall T : Type, tslE T -> St -> St * T)
    (s s1 s2 : St) (lum : Z) (lux : float32) (fuel : nat) :
  handle _ tsl_getFullLuminosity s = (s1, lum) ->
  handle _ (tsl_calculateLux (Z.land lum 0xFFFF) (Z.shiftr lum 16)) s1
    = (s2, lux) ->
  0 <= lum < 2 ^ 32 ->
  (3 <= fuel)%nat ->
  log (run handle fuel tsl2591.advancedRead s)
    = [Call tsl_getFullLuminosity lum;
       Call (tsl_calculateLux (Z.land lum 0xFFFF) (Z.shiftr lum 16)) lux;
       Call (printf "IR: %d  Full: %d  Visible: %d  Lux: %f\n"
               [arg_int (Z.shiftr lum 16); arg_int (Z.land lum 0xFFFF);
                arg_int (Z.land lum 0xFFFF - Z.shiftr lum 16);
                arg_double lux]) tt] /\
  result (run handle fuel tsl2591.advancedRead s) = Some tt /\
  run handle fuel tsl2591_interrupt.advancedRead s
    = run handle fuel tsl2591.advancedRead s.
Proof.
  intros Hlum Hlux Hrange Hfuel.
  split; [|split; [|reflexivity]];
    destruct fuel as [|[|[|fuel]]]; try lia;
    unfold tsl2591.advancedRead;
    pose proof (high_half_range lum Hrange) as Hh;
    pose proof (low_half_range lum) as Hl;
    (run_step; rewrite Hlum; cbn [fst snd];
     rewrite (ir_of_lum lum Hrange), (full_of_lum lum Hrange);
     assert (Hi : to_uint16 (to_uint32 (Z.shiftr (to_uint32 lum) 16))
                  = Z.shiftr lum 16)
       by (rewrite <- promote_uint16; apply ir_of_lum; assumption);
     assert (Hf : to_uint16 (to_uint32 (Z.land (to_uint32 lum) 0xFFFF))
                  = Z.land lum 0xFFFF)
       by (rewrite <- promote_uint16; apply full_of_lum; assumption);
     rewrite Hi, Hf, (to_int_small (Z.land lum 65535 - Z.shiftr lum 16)) by lia;
     run_step; rewrite Hlux; cbn [fst snd]; run_step;
     unit_answers handle; reflexivity).
Qed.

(** ** configureSensor, for every environment *)

Lemma poll_configureSensor_log {St : Type}
    (handle : forall T : Type, tslE T -> St -> St * T)
    (s : St) (fuel : nat) :
  (7 <= fuel)%nat ->
  exists g : returned_gain,
    log (run handle fuel tsl2591.configureSensor s)
      = ([Call (tsl_setGain TSL2591_GAIN_MED) tt;
          Call (tsl_setTiming TSL2591_INTEGRATIONTIME_300MS) tt;
          Call (printf "------------------------------------\n" []) tt;
          Call (printf "Gain:         " []) tt;
          Call tsl_getGain g]
         ++ gain_lines g
         ++ [Call (printf "------------------------------------\n" []) tt])%list /\
    result (run handle fuel tsl2591.configureSensor s) = Some tt.
Proof.
  intros Hfuel. do 7 (destruct fuel as [|fuel]; [lia|]).
  unfold tsl2591.configureSensor, tsl2591.configureSensor_with.
  do 5 run_step.
  match goal with
  | |- context [snd (handle returned_gain tsl_getGain ?s')] =>
      remember (snd (handle returned_gain tsl_getGain s')) as g eqn:Eg;
      clear Eg
  end.
  exists g. destruct g as [[| | |]|]; repeat run_step; unit_answers handle;
    split; reflexivity.
Qed.

(** [configureSensor] of the interrupt example, whatever its macros are:
    the thresholds go to [registerInterrupt] as they are. *)
Lemma interrupt_configureSensor_for_log {St : Type}
    (handle : forall T : Type, tslE T -> St -> St * T)
    (lower upper : Z) (persist : tsl2591Persist_t)
    (gain : tsl2591Gain_t) (integration : tsl2591IntegrationTime_t)
    (s : St) (fuel : nat) :
  (10 <= fuel)%nat ->
  exists g : returned_gain,
    log (run handle fuel
           (tsl2591_interrupt.configureSensor_for lower upper persist gain
              integration) s)
      = ([Call (tsl_setGain gain) tt;
          Call (tsl_setTiming integration) tt;
          Call (printf "------------------------------------\n" []) tt;
          Call (printf "Gain:         " []) tt;
          Call tsl_getGain g]
         ++ gain_lines g
         ++ [Call (printf "------------------------------------\n" []) tt;
             Call tsl_clearInterrupt tt;
             Call (tsl_registerInterrupt (to_uint16 lower) (to_uint16 upper)
                     persist) tt;
             Call (printf "Interrupt Threshold Window: %d to %d\n"
                     [arg_int (to_int lower); arg_int (to_int upper)]) tt])%list /\
    result (run handle fuel
              (tsl2591_interrupt.configureSensor_for lower upper persist gain
                 integration) s) = Some tt.
Proof.
  intros Hfuel. do 10 (destruct fuel as [|fuel]; [lia|]).
  unfold tsl2591_interrupt.configureSensor_for.
  do 5 run_step.
  match goal with
  | |- context [snd (handle returned_gain tsl_getGain ?s')] =>
      remember (snd (handle returned_gain tsl_getGain s')) as g eqn:Eg;
      clear Eg
  end.
  exists g. destruct g as [[| | |]|]; repeat run_step; unit_answers handle;
    split; reflexivity.
Qed.

(** X3.  Against every environment, [configureSensor] of either program
    returns after a fixed sequence of calls: it sets gain MED and the
    integration time (300 ms in the polling example, 100 ms in the interrupt
    example), reads the gain back and prints the label of the gain the
    driver reports, without comparing it with the gain it set; when the
    value reported is none of the four enumerators the [switch] has no case
    for it, no label is printed and the function goes on.  The interrupt
    example then clears the interrupt and registers the window 100..1500
    with persistence 60. *)
Theorem configureSensor_calls {St : Type}
    (handle : forall T : Type, tslE T -> St -> St * T)
    (s : St) (fuel : nat) :
  (10 <= fuel)%nat ->
  (exists g : returned_gain,
     log (run handle fuel tsl2591.configureSensor s)
       = ([Call (tsl_setGain TSL2591_GAIN_MED) tt;
           Call (tsl_setTiming TSL2591_INTEGRATIONTIME_300MS) tt;
           Call (printf "------------------------------------\n" []) tt;
           Call (printf "Gain:         " []) tt;
           Call tsl_getGain g]
          ++ gain_lines g
          ++ [Call (printf "------------------------------------\n" []) tt])%list /\
     result (run handle fuel tsl2591.configureSensor s) = Some tt) /\
  (exists g : returned_gain,
     log (run handle fuel tsl2591_interrupt.configureSensor s)
       = ([Call (tsl_setGain TSL2591_GAIN_MED) tt;
           Call (tsl_setTiming TSL2591_INTEGRATIONTIME_100MS) tt;
           Call (printf "------------------------------------\n" []) tt;
           Call (printf "Gain:         " []) tt;
           Call tsl_getGain g]
          ++ gain_lines g
          ++ [Call (printf "------------------------------------\n" []) tt;
              Call tsl_clearInterrupt tt;
              Call (tsl_registerInterrupt 100 1500 TSL2591_PERSIST_60) tt;
              Call (printf "Interrupt Threshold Window: %d to %d\n"
                      [arg_int 100; arg_int 1500]) tt])%list /\
     result (run handle fuel tsl2591_interrupt.configureSensor s) = Some tt).
Proof.
  intros Hfuel. split.
  - apply poll_configureSensor_log. lia.
  - exact (interrupt_configureSensor_for_log handle
             tsl2591_interrupt.TLS2591_INT_THRESHOLD_LOWER
             tsl2591_interrupt.TLS2591_INT_THRESHOLD_UPPER
             tsl2591_interrupt.TLS2591_INT_PERSIST TSL2591_GAIN_MED
             TSL2591_INTEGRATIONTIME_100MS s fuel Hfuel).
Qed.

(** ** The interrupt window is passed on unchecked *)




(** ** More safety properties of the whole programs *)

(** A loop whose body takes the monitor from [m0] to [m1] and keeps it at
    [m1] from then on. *)
Lemma safe_while_1_settling {St : Type}
    (handle : forall T : Type, tslE T -> St -> St * T)
    {M : Type} (mstep : M -> call -> option M) (m0 m1 : M)
    {R : Type} (body : prog unit) :
  safe handle mstep m0 body (fun _ m => m = m1) ->
  safe handle mstep m1 body (fun _ m => m = m1) ->
  safe handle mstep m0 (while_1 (R:=R) body) (fun _ _ => False).
Proof.
  intros H0 H1.
  apply safe_while_1 with (J := fun m => m = m0 \/ m = m1);
    [|left; reflexivity].
  intros m [-> | ->]; [apply safe_weaken with (1 := H0)
                      |apply safe_weaken with (1 := H1)];
    intros _ ? ->; right; reflexivity.
Qed.

Ltac safe_settle settled :=
  lazymatch goal with
  | |- safe _ _ _ (while_1 (Ret tt)) _ => safe_loop; safe_walk
  | |- safe _ _ _ (while_1 _) _ =>
      apply safe_never;
      apply (safe_while_1_settling _ _ _ settled);
      safe_walk
  end.

Lemma poll_main_settled {St : Type}
    (handle : forall T : Type, tslE T -> St -> St * T) :
  safe handle settled_step false tsl2591.main (fun _ _ => False).
Proof.
  unfold_poll. safe_walk; safe_settle true.
Qed.

Lemma interrupt_main_settled {St : Type}
    (handle : forall T : Type, tslE T -> St -> St * T) :
  safe handle settled_step false tsl2591_interrupt.main (fun _ _ => False).
Proof.
  unfold_interrupt. safe_walk; safe_settle true.
Qed.

Lemma interrupt_main_unread {St : Type}
    (handle : forall T : Type, tslE T -> St -> St * T) :
  safe handle unread_step false tsl2591_interrupt.main (fun _ _ => False).
Proof.
  unfold_interrupt. safe_walk; safe_loop; safe_walk.
Qed.

Lemma poll_main_no_interrupt_api {St : Type}
    (handle : forall T : Type, tslE T -> St -> St * T) :
  safe handle (each (fun c => negb (uses_interrupt_api c))) tt tsl2591.main
    (fun _ _ => False).
Proof.
  unfold_poll. safe_walk; safe_loop; safe_walk.
Qed.

Lemma settled_after (b : list call) :
  forall m', mrun settled_step true b = Some m' ->
    existsb is_configuration b = false.
Proof.
  induction b as [|c b IH]; intros m' H; [reflexivity|].
  rewrite mrun_cons in H. unfold settled_step at 1 in H. simpl.
  destruct (is_poll c) eqn:Ep.
  - rewrite (IH _ H), orb_false_r.
    destruct c as [T e x]. destruct e; simpl in *; congruence.
  - destruct (is_configuration c); simpl in H; [discriminate|].
    apply (IH _ H).
Qed.

Lemma settled_spec (l : list call) (m m' : bool) :
  mrun settled_step m l = Some m' ->
  forall a p b, l = (a ++ p :: b)%list -> is_poll p = true ->
    existsb is_configuration b = false.
Proof.
  intros H a p b -> Hp. rewrite mrun_app in H.
  destruct (mrun settled_step m a) as [m1|]; [|discriminate].
  rewrite mrun_cons in H. unfold settled_step at 1 in H. rewrite Hp in H.
  apply (settled_after _ _ H).
Qed.

Lemma unread_printing (mid : list call) (m : bool) :
  forallb is_printf mid = true -> mrun unread_step m mid = Some m.
Proof.
  induction mid as [|c mid IH]; intros H; [reflexivity|].
  simpl in H. apply andb_true_iff in H. destruct H as [Hc Hmid].
  rewrite mrun_cons. unfold unread_step at 1. rewrite Hc. apply IH, Hmid.
Qed.

Lemma getStatus_not_printf (c : call) : is_getStatus c = true -> is_printf c = false.
Proof. destruct c as [T e x]. destruct e; simpl; congruence. Qed.

Lemma getStatus_not_clearInterrupt (c : call) :
  is_getStatus c = true -> is_clearInterrupt c = false.
Proof. destruct c as [T e x]. destruct e; simpl; congruence. Qed.

Lemma unread_spec (l : list call) (m m' : bool) :
  mrun unread_step m l = Some m' ->
  forall a g mid c b, l = (a ++ g :: mid ++ c :: b)%list ->
    is_getStatus g = true -> forallb is_printf mid = true ->
    is_printf c = false ->
    is_clearInterrupt c = true.
Proof.
  intros H a g mid c b -> Hg Hmid Hc. rewrite mrun_app in H.
  destruct (mrun unread_step m a) as [m1|]; [|discriminate].
  rewrite mrun_cons in H. unfold unread_step at 1 in H.
  rewrite (getStatus_not_printf g Hg), (getStatus_not_clearInterrupt g Hg), Hg
    in H.
  destruct m1; [discriminate|].
  rewrite mrun_app, (unread_printing mid true Hmid), mrun_cons in H.
  unfold unread_step at 1 in H. rewrite Hc in H.
  destruct (is_clearInterrupt c); [reflexivity|discriminate].
Qed.

Lemma halt_printing (a : list call) :
  mrun halt_step Starting a = Some Starting -> forallb is_printf a = true.
Proof.
  induction a as [|c a IH]; intros H; [reflexivity|].
  rewrite mrun_cons in H.
  destruct (halt_step Starting c) as [m1|] eqn:E; [|discriminate].
  pose proof (halt_before a m1 H) as [-> _].
  simpl. rewrite (IH H), andb_true_r.
  destruct c as [T e x]. destruct e; simpl in *; try discriminate.
  - destruct x; discriminate.
  - reflexivity.
Qed.

Lemma halt_found (b : list call) :
  forall m', mrun halt_step Found b = Some m' -> existsb is_begin b = false.
Proof.
  induction b as [|c b IH]; intros m' H; [reflexivity|].
  rewrite mrun_cons in H. simpl in H. simpl.
  destruct (is_begin c); [discriminate|]. apply (IH _ H).
Qed.

Lemma halt_begin_spec (l : list call) (m : handshake) :
  mrun halt_step Starting l = Some m ->
  forall a c b, l = (a ++ c :: b)%list -> is_begin c = true ->
    forallb is_printf a = true /\ existsb is_begin b = false.
Proof.
  intros H a c b -> Hc. rewrite mrun_app in H.
  destruct (mrun halt_step Starting a) as [m1|] eqn:Ea; [|discriminate].
  rewrite mrun_cons in H.
  assert (m1 = Starting) as ->.
  { destruct m1; simpl in H; try reflexivity.
    - rewrite Hc in H. discriminate.
    - destruct c as [T e x]. destruct e; simpl in *; discriminate.
    - discriminate. }
  split; [apply halt_printing, Ea|].
  destruct c as [T e x]. destruct e; simpl in Hc; try discriminate.
  simpl in H. destruct x.
  - apply (halt_found _ _ H).
  - apply halt_after in H. destruct H as [-> | ->]; reflexivity.
Qed.

Lemma each_negb (f : call -> bool) (l : list call) (m m' : unit) :
  mrun (each (fun c => negb (f c))) m l = Some m' -> existsb f l = false.
Proof.
  intros H. apply mrun_each in H.
  induction l as [|c l IH]; [reflexivity|].
  simpl in *. apply andb_true_iff in H. destruct H as [Hc Hl].
  rewrite (IH Hl), orb_false_r. destruct (f c); [discriminate|reflexivity].
Qed.

(** X4.  Against every environment, once either program has polled it
    never configures the sensor again: no [setGain], [setTiming] or
    [registerInterrupt] call follows a [getFullLuminosity] call. *)
Theorem no_configuration_after_poll {St : Type}
    (handle : forall T : Type, tslE T -> St -> St * T)
    (main : prog Z) (n : nat) (s : St) (a b : list call) (p : call) :
  main = tsl2591.main \/ main = tsl2591_interrupt.main ->
  log (run handle n main s) = (a ++ p :: b)%list ->
  is_poll p = true ->
  existsb is_configuration b = false.
Proof.
  intros Hmain Hlog Hp.
  assert (Hsafe : safe handle settled_step false main (fun _ _ => False)).
  { destruct Hmain as [-> | ->];
      [apply poll_main_settled|apply interrupt_main_settled]. }
  destruct (safe_log _ _ _ _ _ Hsafe n s) as (m & Hm).
  exact (settled_spec _ _ _ Hm a p b Hlog Hp).
Qed.

(** X5.  Against every environment, whenever the interrupt program has
    read the status, its next call other than [printf] is
    [clearInterrupt]: a status that was read is cleared before the program
    polls, sleeps or reads the status again. *)
Theorem status_read_is_cleared_next {St : Type}
    (handle : forall T : Type, tslE T -> St -> St * T)
    (n : nat) (s : St) (a mid b : list call) (g c : call) :
  log (run handle n tsl2591_interrupt.main s)
    = (a ++ g :: mid ++ c :: b)%list ->
  is_getStatus g = true ->
  forallb is_printf mid = true ->
  is_printf c = false ->
  is_clearInterrupt c = true.
Proof.
  intros Hlog Hg Hmid Hc.
  destruct (safe_log _ _ _ _ _ (interrupt_main_unread handle) n s) as (m & Hm).
  exact (unread_spec _ _ _ Hm a g mid c b Hlog Hg Hmid Hc).
Qed.

(** X6.  Against every environment, in either program the handshake
    [begin] is the first call made to the driver (only [printf] comes
    before it) and it is made only once. *)
Theorem handshake_first_and_once {St : Type}
    (handle : forall T : Type, tslE T -> St -> St * T)
    (main : prog Z) (n : nat) (s : St) (a b : list call) (c : call) :
  main = tsl2591.main \/ main = tsl2591_interrupt.main ->
  log (run handle n main s) = (a ++ c :: b)%list ->
  is_begin c = true ->
  forallb is_printf a = true /\ existsb is_begin b = false.
Proof.
  intros Hmain Hlog Hc.
  assert (Hsafe : safe handle halt_step Starting main (fun _ _ => False)).
  { destruct Hmain as [-> | ->];
      [apply poll_main_halts|apply interrupt_main_halts]. }
  destruct (safe_log _ _ _ _ _ Hsafe n s) as (m & Hm).
  exact (halt_begin_spec _ _ Hm a c b Hlog Hc).
Qed.

(** X7.  Against every environment and for every amount of fuel, the
    polling example never calls [getID], [getStatus], [clearInterrupt] or
    [registerInterrupt]. *)
Theorem poll_program_leaves_interrupts_alone {St : Type}
    (handle : forall T : Type, tslE T -> St -> St * T) (n : nat) (s : St) :
  existsb uses_interrupt_api (log (run handle n tsl2591.main s)) = false.
Proof.
  destruct (safe_log _ _ _ _ _ (poll_main_no_interrupt_api handle) n s)
    as (m & Hm).
  exact (each_negb _ _ _ _ Hm).
Qed.

(** X8.  Neither program ever returns from [main], whatever the
    environment answers and however long it runs: also with the sensor
    present the only way out of the polling loop is a reset. *)
Theorem main_never_returns {St : Type}
    (handle : forall T : Type, tslE T -> St -> St * T) (n : nat) (s : St) :
  result (run handle n tsl2591.main s) = None /\
  result (run handle n tsl2591_interrupt.main s) = None.
Proof.
  split.
  - apply (safe_result _ _ _ _ (poll_main_halts handle)).
  - apply (safe_result _ _ _ _ (interrupt_main_halts handle)).
Qed.

(** ** Progress of the polling loop *)

Lemma count_polls_app (l1 l2 : list call) :
  count_polls (l1 ++ l2) = (count_polls l1 + count_polls l2)%nat.
Proof. unfold count_polls. rewrite filter_app, length_app. reflexivity. Qed.

Section ProgressFacts.
Context {St : Type}.
Variable handle : forall T : Type, tslE T -> St -> St * T.

Lemma within_ret {R : Type} (r : R) : within handle 0 0 (Ret r).
Proof.
  intros s m _. rewrite run_ret. simpl. repeat split; try lia. discriminate.
Qed.

Lemma within_call {T : Type} (e : tslE T) :
  within handle 1 0 (ITree.trigger e).
Proof.
  intros s [|m] Hm; [lia|]. rewrite run_call. simpl.
  repeat split; try lia. discriminate.
Qed.

Lemma within_poll : within handle 1 1 (ITree.trigger tsl_getFullLuminosity).
Proof.
  intros s [|m] Hm; [lia|]. rewrite run_call. unfold count_polls. simpl.
  repeat split; try lia. discriminate.
Qed.

Lemma within_bind {R U : Type} (c1 p1 c2 p2 : nat) (t : prog R)
    (k : R -> prog U) :
  within handle c1 p1 t ->
  (forall r, within handle c2 p2 (k r)) ->
  within handle (c1 + c2) (p1 + p2) (ITree.bind t k).
Proof.
  intros Ht Hk s m Hm. rewrite run_bind. unfold then_run.
  destruct (Ht s m ltac:(lia)) as (Hr & Hf & Hp).
  destruct (result (run handle m t s)) as [r|]; [|congruence].
  destruct (Hk r (env (run handle m t s)) (fuel_left (run handle m t s))
              ltac:(lia)) as (Hr2 & Hf2 & Hp2).
  simpl. rewrite count_polls_app. repeat split; try lia. exact Hr2.
Qed.

Lemma within_weaken {R : Type} (c p c' p' : nat) (t : prog R) :
  within handle c p t -> (c <= c')%nat -> (p' <= p)%nat ->
  within handle c' p' t.
Proof.
  intros H Hc Hp s m Hm. destruct (H s m ltac:(lia)) as (Hr & Hf & Hq).
  repeat split; try lia. exact Hr.
Qed.

Lemma within_when (c : nat) (b : bool) (body : prog unit) :
  within handle c 0 body -> within handle c 0 (when b body).
Proof.
  intros H. destruct b; [exact H|].
  apply within_weaken with (1 := within_ret tt); lia.
Qed.

Lemma polls_by_weaken {R : Type} (f g : nat -> nat) (t : prog R) :
  polls_by handle f t -> (forall k, (f k <= g k)%nat) -> polls_by handle g t.
Proof.
  intros H Hfg k n s Hn. apply H. specialize (Hfg k). lia.
Qed.

(** A loop whose body always returns and polls keeps polling. *)
Lemma polls_by_while_1 {R : Type} (c : nat) (body : prog unit) :
  within handle c 1 body ->
  polls_by handle (fun k => (S c * k)%nat) (while_1 (R:=R) body).
Proof.
  intros Hbody k. induction k as [|k IH]; intros n s Hn; [lia|].
  rewrite run_while_1. unfold then_run.
  destruct (Hbody s n ltac:(nia)) as (Hr & Hf & Hp).
  destruct (result (run handle n body s)) as [r|]; [|congruence].
  destruct (fuel_left (run handle n body s)) as [|m] eqn:Em; [nia|].
  simpl. rewrite count_polls_app.
  specialize (IH m (env (run handle n body s)) ltac:(nia)). lia.
Qed.

Lemma polls_by_bind {R U : Type} (c p : nat) (f : nat -> nat) (t : prog R)
    (k : R -> prog U) :
  within handle c p t ->
  (forall r, polls_by handle f (k r)) ->
  polls_by handle (fun j => (c + f j)%nat) (ITree.bind t k).
Proof.
  intros Ht Hk j n s Hn. rewrite run_bind. unfold then_run.
  destruct (Ht s n ltac:(lia)) as (Hr & Hf & Hp).
  destruct (result (run handle n t s)) as [r|]; [|congruence].
  simpl. rewrite count_polls_app.
  specialize (Hk r j (fuel_left (run handle n t s))
                (env (run handle n t s)) ltac:(lia)). lia.
Qed.

(** The handshake, when the sensor answers it. *)
Lemma polls_by_begin {U : Type} (f : nat -> nat) (k : bool -> prog U) :
  (forall s, snd (handle _ tsl_begin s) = true) ->
  polls_by handle f (k true) ->
  polls_by handle (fun j => S (f j)) (ITree.bind (ITree.trigger tsl_begin) k).
Proof.
  intros Hbegin Hk j [|n] s Hn; [lia|].
  rewrite run_bind_call, Hbegin. unfold logged, count_polls. simpl.
  apply (Hk j n). lia.
Qed.
End ProgressFacts.

Ltac within_walk :=
  lazymatch goal with
  | |- within _ _ _ (ITree.bind (ITree.trigger tsl_getFullLuminosity) _) =>
      eapply within_bind; [apply within_poll | intros ?; within_walk]
  | |- within _ _ _ (ITree.bind (when _ _) _) =>
      eapply within_bind;
      [apply within_when; within_walk | intros ?; within_walk]
  | |- within _ _ _ (ITree.bind _ _) =>
      eapply within_bind; [within_walk | intros ?; within_walk]
  | |- within _ _ _ (ITree.trigger _) => apply within_call
  | |- within _ _ _ (Ret _) => apply within_ret
  | |- within _ _ _ (match ?g with
                     | listed _ => _
                     | unlisted => _
                     end) =>
      destruct g as [[| | |]|];
      [apply within_call ..
      |apply within_weaken with (1 := within_ret _ tt); lia]
  end.

Ltac within_tac :=
  eapply within_weaken; [within_walk | simpl; lia | simpl; lia].

Section ProgramProgress.
Context {St : Type}.
Variable handle : forall T : Type, tslE T -> St -> St * T.

Lemma advancedRead_within : within handle 3 1 tsl2591.advancedRead.
Proof. unfold tsl2591.advancedRead. within_tac. Qed.

Lemma getStatus_within : within handle 5 0 tsl2591_interrupt.getStatus.
Proof. unfold tsl2591_interrupt.getStatus. within_tac. Qed.

Lemma poll_configureSensor_within : within handle 7 0 tsl2591.configureSensor.
Proof.
  unfold tsl2591.configureSensor, tsl2591.configureSensor_with. within_tac.
Qed.

Lemma interrupt_configureSensor_within :
  within handle 10 0 tsl2591_interrupt.configureSensor.
Proof.
  unfold tsl2591_interrupt.configureSensor,
    tsl2591_interrupt.configureSensor_with,
    tsl2591_interrupt.configureSensor_for.
  within_tac.
Qed.

Lemma poll_turn_within :
  within handle 4 1
    (tsl2591.advancedRead;; ITree.trigger (thread_sleep_for 500)).
Proof.
  apply within_weaken with (c := (3 + 1)%nat) (p := (1 + 0)%nat); try lia.
  apply within_bind; [apply advancedRead_within|intros _; apply within_call].
Qed.

Lemma interrupt_turn_within :
  within handle 9 1
    (tsl2591_interrupt.advancedRead;;
     tsl2591_interrupt.getStatus;;
     ITree.trigger (thread_sleep_for 500)).
Proof.
  apply within_weaken with (c := (3 + (5 + 1))%nat) (p := (1 + (0 + 0))%nat);
    try lia.
  apply within_bind; [apply advancedRead_within|intros _].
  apply within_bind; [apply getStatus_within|intros _; apply within_call].
Qed.

Hypothesis sensor_answers : forall s, snd (handle _ tsl_begin s) = true.

Lemma poll_main_polls :
  polls_by handle (fun k => (9 + 5 * k)%nat) tsl2591.main.
Proof.
  unfold tsl2591.main.
  eapply polls_by_weaken.
  - eapply polls_by_bind; [apply within_call|intros _].
    apply polls_by_begin; [exact sensor_answers|]. cbn [negb when].
    eapply polls_by_bind; [apply within_ret|intros _].
    eapply polls_by_bind; [apply poll_configureSensor_within|intros _].
    apply (polls_by_while_1 handle 4), poll_turn_within.
  - intros k. simpl. lia.
Qed.

Lemma interrupt_main_polls :
  polls_by handle (fun k => (16 + 10 * k)%nat) tsl2591_interrupt.main.
Proof.
  unfold tsl2591_interrupt.main.
  eapply polls_by_weaken.
  - eapply polls_by_bind; [apply within_call|intros _].
    apply polls_by_begin; [exact sensor_answers|]. cbn [negb when].
    eapply polls_by_bind; [apply within_ret|intros _].
    eapply polls_by_bind; [apply within_call|intros id].
    eapply polls_by_bind; [apply within_call|intros _].
    eapply polls_by_bind; [apply within_call|intros _].
    eapply polls_by_bind; [apply within_call|intros _].
    eapply polls_by_bind; [apply interrupt_configureSensor_within|intros _].
    apply (polls_by_while_1 handle 9), interrupt_turn_within.
  - intros k. simpl. lia.
Qed.
End ProgramProgress.

(** X9.  With a sensor that answers the handshake, and a driver whose calls
    all return, the polling loop never stalls: for every [k], either
    program has polled at least [k] times once it has run for [16 + 10 k]
    calls and loop turns ([9 + 5 k] suffice for the polling example). *)
Theorem polling_never_stalls {St : Type}
    (handle : forall T : Type, tslE T -> St -> St * T)
    (k n : nat) (s : St) :
  (forall s', snd (handle _ tsl_begin s') = true) ->
  (16 + 10 * k <= n)%nat ->
  (k <= count_polls (log (run handle n tsl2591.main s)))%nat /\
  (k <= count_polls (log (run handle n tsl2591_interrupt.main s)))%nat /\
  (k <= count_polls (log (run handle (9 + 5 * k) tsl2591.main s)))%nat.
Proof.
  intros Hbegin Hn. repeat split.
  - apply (poll_main_polls handle Hbegin k). lia.
  - apply (interrupt_main_polls handle Hbegin k). lia.
  - apply (poll_main_polls handle Hbegin k). lia.
Qed.

(** ** simpleRead *)

(** X10.  Whatever [getLuminosity] does, once it has returned [x] for the
    visible channel, [simpleRead] adds exactly one call, the line
    "Luminosity", and returns; the value printed is [x] as a [uint16_t], so
    it lies between 0 and 65535: unlike the Visible value of
    [advancedRead], it is never negative. *)
Theorem simpleRead_prints_uint16 {St : Type}
    (handle : forall T : Type, tslE T -> St -> St * T)
    (getLuminosity : tsl2591Channel -> prog Z)
    (s : St) (x : Z) (m fuel : nat) :
  result (run handle m (getLuminosity TSL2591_VISIBLE) s) = Some x ->
  (m < fuel)%nat ->
  log (run handle fuel (tsl2591.simpleRead getLuminosity) s)
    = (log (run handle m (getLuminosity TSL2591_VISIBLE) s)
       ++ [Call (printf "Luminosity: %d\n" [arg_int (x mod 2 ^ 16)]) tt])%list /\
  0 <= x mod 2 ^ 16 < 2 ^ 16 /\
  result (run handle fuel (tsl2591.simpleRead getLuminosity) s) = Some tt.
Proof.
  intros Hx Hfuel. unfold tsl2591.simpleRead.
  rewrite run_bind.
  rewrite (run_more_fuel handle m _ s x Hx fuel) by lia.
  unfold then_run. cbn [result fuel_left env log].
  replace (fuel_left (run handle m (getLuminosity TSL2591_VISIBLE) s)
           + (fuel - m))%nat
    with (S (fuel_left (run handle m (getLuminosity TSL2591_VISIBLE) s)
             + (fuel - m - 1)))%nat by lia.
  rewrite run_call. cbn [result fuel_left env log].
  rewrite promote_uint16. unfold to_uint16.
  unit_answers handle.
  repeat split; apply Z.mod_pos_bound; lia.
Qed.

(** ** The further properties at work *)

Lemma advancedRead_visible_signed_witness :
  exists visible : Z,
    readings (log (run (sensor_handle no_lux) 3 tsl2591.advancedRead bench))
      = [(Z.shiftr 0x03E801F4 16, Z.land 0x03E801F4 0xFFFF, visible)] /\
    readings
      (log (run (sensor_handle no_lux) 3 tsl2591_interrupt.advancedRead bench))
      = [(Z.shiftr 0x03E801F4 16, Z.land 0x03E801F4 0xFFFF, visible)] /\
    visible = Z.land 0x03E801F4 0xFFFF - Z.shiftr 0x03E801F4 16 /\
    - 65535 <= visible <= 65535 /\
    (visible < 0 <-> Z.land 0x03E801F4 0xFFFF < Z.shiftr 0x03E801F4 16).
Proof.
  eapply (advancedRead_visible_signed (sensor_handle no_lux) bench).
  - vm_compute. reflexivity.
  - split; [discriminate|reflexivity].
  - apply le_n.
Defined.

Lemma advancedRead_calls_witness :
  result (run (sensor_handle no_lux) 3 tsl2591.advancedRead daylight)
  = Some tt.
Proof.
  eapply (advancedRead_calls (sensor_handle no_lux) daylight).
  - vm_compute. reflexivity.
  - vm_compute. reflexivity.
  - split; [discriminate|reflexivity].
  - apply le_n.
Defined.

Lemma configureSensor_calls_witness :
  result (run lamp 10 tsl2591_interrupt.configureSensor 0%nat) = Some tt.
Proof.
  destruct (configureSensor_calls lamp 0%nat 10 (le_n 10)) as [_ (g & _ & H)].
  exact H.
Defined.

Lemma no_configuration_after_poll_witness :
  existsb is_configuration
    (skipn 17
       (log (run (sensor_handle no_lux) 40 tsl2591_interrupt.main bench)))
  = false.
Proof.
  apply (no_configuration_after_poll (sensor_handle no_lux)
           tsl2591_interrupt.main 40 bench
           (firstn 16
              (log (run (sensor_handle no_lux) 40 tsl2591_interrupt.main bench)))
           (skipn 17
              (log (run (sensor_handle no_lux) 40 tsl2591_interrupt.main bench)))
           (Call tsl_getFullLuminosity 0x03E801F4)).
  - right. reflexivity.
  - vm_compute. reflexivity.
  - reflexivity.
Defined.

Lemma status_read_is_cleared_next_witness :
  is_clearInterrupt (Call tsl_clearInterrupt tt) = true.
Proof.
  apply (status_read_is_cleared_next (sensor_handle no_lux) 40 bench
           (firstn 19
              (log (run (sensor_handle no_lux) 40 tsl2591_interrupt.main bench)))
           [Call (printf "ALS Interrupt occured\n" []) tt;
            Call (printf "Status: %x\n" [arg_int 0x10]) tt]
           (skipn 23
              (log (run (sensor_handle no_lux) 40 tsl2591_interrupt.main bench)))
           (Call tsl_getStatus 0x10)
           (Call tsl_clearInterrupt tt)).
  - vm_compute. reflexivity.
  - reflexivity.
  - reflexivity.
  - reflexivity.
Defined.

Lemma handshake_first_and_once_witness :
  forallb is_printf
    [Call (printf "Starting Adafruit TSL2591 interrupt Test!\n" []) tt] = true /\
  existsb is_begin
    (skipn 2 (log (run (sensor_handle no_lux) 40 tsl2591_interrupt.main bench)))
  = false.
Proof.
  apply (handshake_first_and_once (sensor_handle no_lux)
           tsl2591_interrupt.main 40 bench
           [Call (printf "Starting Adafruit TSL2591 interrupt Test!\n" []) tt]
           (skipn 2
              (log (run (sensor_handle no_lux) 40 tsl2591_interrupt.main bench)))
           (Call tsl_begin true)).
  - right. reflexivity.
  - vm_compute. reflexivity.
  - reflexivity.
Defined.

Lemma polling_never_stalls_witness :
  (3 <= count_polls (log (run lamp 46 tsl2591.main 0%nat)))%nat /\
  (3 <= count_polls (log (run lamp 46 tsl2591_interrupt.main 0%nat)))%nat /\
  (3 <= count_polls (log (run lamp (9 + 5 * 3) tsl2591.main 0%nat)))%nat.
Proof.
  apply (polling_never_stalls lamp 3 46 0%nat).
  - intros s'. reflexivity.
  - apply le_n.
Defined.

Lemma simpleRead_prints_uint16_witness :
  log (run lamp 1 (tsl2591.simpleRead (fun _ => Ret 65036)) 0%nat)
    = (log (run lamp 0 (Ret 65036) 0%nat)
       ++ [Call (printf "Luminosity: %d\n" [arg_int (65036 mod 2 ^ 16)]) tt])%list /\
  0 <= 65036 mod 2 ^ 16 < 2 ^ 16 /\
  result (run lamp 1 (tsl2591.simpleRead (fun _ => Ret 65036)) 0%nat)
    = Some tt.
Proof.
  apply (simpleRead_prints_uint16 lamp (fun _ => Ret 65036) 0%nat 65036 0 1).
  - reflexivity.
  - apply le_n.
Defined.
